(** * WireDI language-service plugin: the validation engine

    A shallow embedding of [ValidationEngine.ts] (the orchestrator of the
    dependency-injection validator) together with the properties its
    specification states about it.

    Conventions of the embedding:
    - a [ts.Symbol] is compared by reference in the source; it is a
      [positive] here, one number per declaration;
    - a JavaScript [Map] is an insertion-ordered association list with
      unique keys ([JsMap]): iteration order is what [for .. of] sees;
    - a JavaScript [Set] of symbols, only ever tested for membership, is a
      [gset];
    - the host (the TypeScript compiler API) is the class [TsHost];
    - recursion over the [extends] graph is bounded by the depth of the call
      stack: the recursive functions take that bound and return [None] where
      the source overflows the stack (a [RangeError] is thrown). *)

From stdpp Require Import base option list gmap sets strings pretty.
From Stdlib Require Import ZArith Lia Ascii.

Local Open Scope string_scope.
Local Open Scope list_scope.
Local Open Scope Z_scope.

(** ** Host types *)

(** [ts.Symbol]: identity of a declaration. *)
Definition Symbol := positive.

(** [ts.Type]: a handle on a type of the checker. *)
Definition TsType := positive.

(** [ts.SourceFile] and [ts.Node]: handles; what the plugin reads of them
    goes through the host. *)
Definition SourceFile := positive.
Definition Node := positive.

(** The part of the compiler API the engine calls. [getStart n f] is
    [n.getStart(f)] and [getWidth n f] is [n.getWidth(f)]; called without
    an argument they use the node's own file. *)
Class TsHost := {
  getSourceFile : Node -> SourceFile;
  getStart : Node -> SourceFile -> Z;
  getWidth : Node -> SourceFile -> Z;
  isTypeAssignableTo : TsType -> TsType -> bool;
  typeToString : TsType -> string
}.

Definition getStart0 `{host : TsHost} (n : Node) : Z := getStart n (getSourceFile n).
Definition getWidth0 `{host : TsHost} (n : Node) : Z := getWidth n (getSourceFile n).

(** ** JavaScript maps *)

Module JsMap.
Section JsMap.
Context {K V : Type} `{EqDecision K}.

Fixpoint get (k : K) (m : list (K * V)) : option V :=
  match m with
  | [] => None
  | (k', v) :: r => if decide (k = k') then Some v else get k r
  end.

Definition has (k : K) (m : list (K * V)) : bool :=
  match get k m with Some _ => true | None => false end.

(** [m.set(k, v)]: an existing key keeps its place, a new one goes last. *)
Fixpoint set (k : K) (v : V) (m : list (K * V)) : list (K * V) :=
  match m with
  | [] => [(k, v)]
  | (k', v') :: r =>
      if decide (k = k') then (k, v) :: r else (k', v') :: set k v r
  end.

Definition keys (m : list (K * V)) : list K := map fst m.
End JsMap.
End JsMap.

(** ** Data model ([types.ts])

    The fields keep their names, but for those that several records share
    or that clash with a name of the library: [type] of a configuration is
    [configType], [symbol] is [configSymbol] or [classSymbol], [name] of a
    class is [className], [token] of a dependency is [depToken], [id] of a
    token is [tokenId], and [length] of an error is [errLength]. An optional
    field is an [option]. *)

(** Modelled from the spec: [types.ts] is not part of the sources; the
    registration kinds are the three the specification lists. The engine
    itself only tells [factory] and [value] from the rest. *)
Inductive RegistrationType := RegProviderClass | RegFactory | RegValue.

#[global] Instance RegistrationType_eq_dec : EqDecision RegistrationType.
Proof. solve_decision. Defined.

(** A token identity is the key of the map of provided tokens. *)
Definition TokenId := string.

Record NormalizedToken := {
  tokenId : TokenId;
  displayName : string
}.

Record RegisteredProvider := {
  token : NormalizedToken;
  registrationType : RegistrationType;
  providerClass : option Symbol;
  providerClassName : option string;
  providerType : option TsType;
  node : Node
}.

Record RequiredDependency := {
  depToken : NormalizedToken;
  expectedType : option TsType;
  parameterNode : Node;
  parameterIndex : nat
}.

Record AnalyzedClass := {
  className : string;
  classSymbol : Symbol;
  dependencies : list RequiredDependency
}.

Inductive ConfigType := Builder | Partial.

#[global] Instance ConfigType_eq_dec : EqDecision ConfigType.
Proof. solve_decision. Defined.

Record ListenerBinding := {
  event : Symbol;
  listener : Symbol
}.

Record AnalyzedConfig := {
  configType : ConfigType;
  builderId : option string;
  variableName : option string;
  configSymbol : option Symbol;
  sourceFile : SourceFile;
  localProviders : list RegisteredProvider;
  listeners : list ListenerBinding;
  parentConfigs : list Symbol
}.

Record RelatedInformation := {
  relFile : SourceFile;
  relStart : Z;
  relLength : Z;
  relMessage : string
}.

Record DIValidationError := {
  message : string;
  file : SourceFile;
  start : Z;
  errLength : Z;
  relatedInformation : option (list RelatedInformation)
}.

(** ** Strings of the messages *)

Definition nl : string := String "010"%char "".

(** [a || b] on optional strings: an absent or empty left operand gives the
    right one. *)
Definition str_or (a : option string) (b : string) : string :=
  match a with
  | Some s => if decide (s = "") then b else s
  | None => b
  end.

(** [config.builderId || config.variableName || 'unknown'] *)
Definition builderLabel (config : AnalyzedConfig) : string :=
  str_or (builderId config) (str_or (variableName config) "unknown").

(** The kind of an error is read off the opening of its message. *)
Fixpoint startsWith (p s : string) : bool :=
  match p, s with
  | EmptyString, _ => true
  | String a p', String b s' => if decide (a = b) then startsWith p' s' else false
  | String _ _, EmptyString => false
  end.

Definition isMissingDependency (e : DIValidationError) : bool :=
  startsWith "[WireDI] Missing dependency" (message e).

Definition isTypeMismatch (e : DIValidationError) : bool :=
  startsWith "[WireDI] Type mismatch" (message e).

(** The message the documentation of the project gives for a listener
    registered twice. *)
Definition isDuplicateListener (e : DIValidationError) : bool :=
  startsWith "[WireDI] Duplicate listener" (message e).

(** Every error of the engine is a missing-dependency or a type-mismatch
    one. *)
Definition dependencyKind (e : DIValidationError) : Prop :=
  isDuplicateListener e = false
  /\ (isMissingDependency e = true \/ isTypeMismatch e = true).

(** A message [names] a string when the string occurs in it. *)
Definition names (msg s : string) : Prop :=
  exists pre post, msg = pre +:+ s +:+ post.

(** ** The validation engine ([ValidationEngine.ts]) *)

Section Engine.
Context `{host : TsHost}.

(** [createMissingDependencyError] *)
Definition createMissingDependencyError (analyzedClass : AnalyzedClass)
    (dependency : RequiredDependency) (provider : RegisteredProvider)
    (config : AnalyzedConfig) : DIValidationError :=
  let className := className analyzedClass in
  let tokenName := displayName (depToken dependency) in
  let builderId := builderLabel config in
  let paramIndex := parameterIndex dependency in
  let errorNode := node provider in
  let errorSourceFile := sourceFile config in
  {| message :=
       "[WireDI] Missing dependency: '" +:+ className +:+ "' requires '"
         +:+ tokenName +:+ "' but it's not registered" +:+ nl +:+ nl
         +:+ "The service '" +:+ className +:+ "' expects '" +:+ tokenName
         +:+ "' as parameter #" +:+ pretty paramIndex +:+ ", "
         +:+ "but this token is not provided in the '" +:+ builderId
         +:+ "' configuration or its partials." +:+ nl +:+ nl
         +:+ "💡 Fix: Add '{ token: " +:+ tokenName
         +:+ " }' to your injections array.";
     file := errorSourceFile;
     start := getStart errorNode errorSourceFile;
     errLength := getWidth errorNode errorSourceFile;
     relatedInformation := Some [
       {| relFile := getSourceFile (parameterNode dependency);
          relStart := getStart0 (parameterNode dependency);
          relLength := getWidth0 (parameterNode dependency);
          relMessage :=
            "The dependency '" +:+ tokenName +:+ "' is required here" |} ]
  |}.

(** [checkTypeCompatibility]; [None] is the source's [null]. *)
Definition checkTypeCompatibility (dependency : RequiredDependency)
    (registeredProvider : RegisteredProvider) (analyzedClass : AnalyzedClass)
    (config : AnalyzedConfig) : option DIValidationError :=
  match expectedType dependency, providerType registeredProvider with
  | Some expectedType, Some providerType =>
      if bool_decide (registrationType registeredProvider = RegFactory
                      \/ registrationType registeredProvider = RegValue)
      then None
      else
        let isCompatible := isTypeAssignableTo providerType expectedType in
        if negb isCompatible then
          let expectedTypeName := typeToString expectedType in
          let providerTypeName := typeToString providerType in
          let className := className analyzedClass in
          let tokenName := displayName (depToken dependency) in
          let paramIndex := parameterIndex dependency in
          let errorNode := node registeredProvider in
          let errorSourceFile := getSourceFile errorNode in
          Some
            {| message :=
                 "[WireDI] Type mismatch: Provider doesn't match expected type"
                   +:+ nl +:+ nl
                   +:+ "Service '" +:+ className +:+ "' expects type '"
                   +:+ expectedTypeName +:+ "' for '" +:+ tokenName
                   +:+ "' (parameter #" +:+ pretty paramIndex +:+ ")," +:+ nl
                   +:+ "but the registered provider '"
                   +:+ str_or (providerClassName registeredProvider) "unknown"
                   +:+ "' " +:+ "returns '" +:+ providerTypeName +:+ "'."
                   +:+ nl +:+ nl
                   +:+ "💡 Fix: Register a provider that implements '"
                   +:+ expectedTypeName
                   +:+ "' or use a factory to adapt the type.";
               file := errorSourceFile;
               start := getStart errorNode errorSourceFile;
               errLength := getWidth errorNode errorSourceFile;
               relatedInformation := Some [
                 {| relFile := getSourceFile (parameterNode dependency);
                    relStart := getStart0 (parameterNode dependency);
                    relLength := getWidth0 (parameterNode dependency);
                    relMessage :=
                      "The type '" +:+ expectedTypeName
                        +:+ "' is expected here" |} ]
            |}
        else None
  | _, _ => None
  end.

(** One turn of the loop of [validateClassDependencies]: the errors pushed
    for one dependency. *)
Definition dependencyErrors (analyzedClass : AnalyzedClass)
    (providedTokens : list (TokenId * RegisteredProvider))
    (provider : RegisteredProvider) (config : AnalyzedConfig)
    (dependency : RequiredDependency) : list DIValidationError :=
  match JsMap.get (tokenId (depToken dependency)) providedTokens with
  | None =>
      [createMissingDependencyError analyzedClass dependency provider config]
  | Some registeredProvider =>
      match checkTypeCompatibility dependency registeredProvider
              analyzedClass config with
      | Some typeError => [typeError]
      | None => []
      end
  end.

(** [validateClassDependencies] *)
Definition validateClassDependencies (analyzedClass : AnalyzedClass)
    (providedTokens : list (TokenId * RegisteredProvider))
    (provider : RegisteredProvider) (config : AnalyzedConfig)
    : list DIValidationError :=
  fold_left
    (fun errors dependency =>
       errors ++ dependencyErrors analyzedClass providedTokens provider
                   config dependency)
    (dependencies analyzedClass) [].

(** *** Classes to validate

    [collectClassesToValidate] receives [visitedSet] and hands it on to
    its recursive calls, and neither reads nor updates it. Next to the map
    it returns, the embedding keeps a log (ghost state, absent from the
    source) of the parent configurations the recursion was invoked on, in
    call order. *)

(** The first loop: [classes.set(provider.providerClass, provider)] for
    the local providers that carry a provider class. *)
Definition addLocalClasses (providers : list RegisteredProvider)
    (classes : list (Symbol * RegisteredProvider))
    : list (Symbol * RegisteredProvider) :=
  fold_left
    (fun classes provider =>
       match providerClass provider with
       | Some c => JsMap.set c provider classes
       | None => classes
       end)
    providers classes.

(** The inner loop: classes of a parent are added unless already there. *)
Definition mergeParentClasses (parentClasses : list (Symbol * RegisteredProvider))
    (classes : list (Symbol * RegisteredProvider))
    : list (Symbol * RegisteredProvider) :=
  fold_left
    (fun classes '(classSymbol, provider) =>
       if JsMap.has classSymbol classes then classes
       else JsMap.set classSymbol provider classes)
    parentClasses classes.

(** The loop over [config.parentConfigs]; [rec] is the recursive call. *)
Fixpoint collectParents
    (rec : AnalyzedConfig ->
           option (list (Symbol * RegisteredProvider) * list Symbol))
    (allConfigs : list (Symbol * AnalyzedConfig)) (parents : list Symbol)
    (classes : list (Symbol * RegisteredProvider)) (log : list Symbol)
    : option (list (Symbol * RegisteredProvider) * list Symbol) :=
  match parents with
  | [] => Some (classes, log)
  | parentSymbol :: rest =>
      match JsMap.get parentSymbol allConfigs with
      | Some parentConfig =>
          match rec parentConfig with
          | Some (parentClasses, sublog) =>
              collectParents rec allConfigs rest
                (mergeParentClasses parentClasses classes)
                (log ++ parentSymbol :: sublog)
          | None => None
          end
      | None => collectParents rec allConfigs rest classes log
      end
  end.

Fixpoint collectClassesToValidate (depth : nat) (config : AnalyzedConfig)
    (allConfigs : list (Symbol * AnalyzedConfig)) (visitedSet : gset Symbol)
    : option (list (Symbol * RegisteredProvider) * list Symbol) :=
  match depth with
  | O => None
  | S depth' =>
      collectParents
        (fun parentConfig =>
           collectClassesToValidate depth' parentConfig allConfigs visitedSet)
        allConfigs (parentConfigs config)
        (addLocalClasses (localProviders config) []) []
  end.

(** *** Provided tokens *)

(** Step 3 of the resolution: the configuration's own providers, each keyed
    by its token identity, are laid over the mapping. *)
Definition overlayProviders (providers : list RegisteredProvider)
    (tokens : list (TokenId * RegisteredProvider))
    : list (TokenId * RegisteredProvider) :=
  fold_left
    (fun tokens provider => JsMap.set (tokenId (token provider)) provider tokens)
    providers tokens.

(** Step 2, merging: the resolved mapping of a parent is folded into the
    mapping built so far. *)
Definition mergeTokens (parentTokens : list (TokenId * RegisteredProvider))
    (tokens : list (TokenId * RegisteredProvider))
    : list (TokenId * RegisteredProvider) :=
  fold_left (fun tokens '(k, provider) => JsMap.set k provider tokens)
    parentTokens tokens.

(** Step 2, the loop over the parents: a parent already in [visited] is
    not entered again; [rec] is the recursive call. *)
Fixpoint resolveParents
    (rec : AnalyzedConfig -> gset Symbol ->
           option (list (TokenId * RegisteredProvider) * gset Symbol))
    (allConfigs : list (Symbol * AnalyzedConfig)) (parents : list Symbol)
    (tokens : list (TokenId * RegisteredProvider)) (visited : gset Symbol)
    : option (list (TokenId * RegisteredProvider) * gset Symbol) :=
  match parents with
  | [] => Some (tokens, visited)
  | parentSymbol :: rest =>
      match JsMap.get parentSymbol allConfigs with
      | Some parentConfig =>
          if decide (parentSymbol ∈ visited)
          then resolveParents rec allConfigs rest tokens visited
          else
            match rec parentConfig ({[parentSymbol]} ∪ visited) with
            | Some (parentTokens, visited') =>
                resolveParents rec allConfigs rest
                  (mergeTokens parentTokens tokens) visited'
            | None => None
            end
      | None => resolveParents rec allConfigs rest tokens visited
      end
  end.

(** Modelled from the spec: [ConfigurationAnalyzer.ts], where
    [resolveAllProvidedTokens] lives, is not part of the sources. Following
    section 4.2: start with an empty mapping; recurse into each parent of
    [parentConfigs], guarded by [visited], merging each parent's resolved
    mapping in first; overlay the configuration's own [localProviders];
    return the merged mapping. The source updates [visited] in place: the
    embedding returns it next to the mapping. *)
Fixpoint resolveAllProvidedTokens (depth : nat) (config : AnalyzedConfig)
    (allConfigs : list (Symbol * AnalyzedConfig)) (visited : gset Symbol)
    : option (list (TokenId * RegisteredProvider) * gset Symbol) :=
  match depth with
  | O => None
  | S depth' =>
      match resolveParents
              (fun parentConfig visited =>
                 resolveAllProvidedTokens depth' parentConfig allConfigs visited)
              allConfigs (parentConfigs config) [] visited with
      | Some (tokens, visited') =>
          Some (overlayProviders (localProviders config) tokens, visited')
      | None => None
      end
  end.

(** *** One configuration *)

(** The loop of [validateConfig] over [classesToValidate]. *)
Definition validateClasses (classesToValidate : list (Symbol * RegisteredProvider))
    (allClasses : list (Symbol * AnalyzedClass))
    (providedTokens : list (TokenId * RegisteredProvider))
    (config : AnalyzedConfig) : list DIValidationError :=
  fold_left
    (fun errors '(classSymbol, provider) =>
       match JsMap.get classSymbol allClasses with
       | None => errors
       | Some analyzedClass =>
           errors ++ validateClassDependencies analyzedClass providedTokens
                       provider config
       end)
    classesToValidate [].

(** [validateConfig]: both recursions start from a fresh, empty set. *)
Definition validateConfig (depth : nat) (config : AnalyzedConfig)
    (allConfigs : list (Symbol * AnalyzedConfig))
    (allClasses : list (Symbol * AnalyzedClass))
    : option (list DIValidationError) :=
  match resolveAllProvidedTokens depth config allConfigs ∅ with
  | None => None
  | Some (providedTokens, _) =>
      match collectClassesToValidate depth config allConfigs ∅ with
      | None => None
      | Some (classesToValidate, _) =>
          Some (validateClasses classesToValidate allClasses providedTokens
                  config)
      end
  end.

(** *** The whole program *)

(** What the two analyzers return for one source file. The analyzers are
    not part of the sources; their results are the input here. *)
Record AnalyzedFile := {
  isDeclarationFile : bool;
  fileConfigs : list AnalyzedConfig;
  fileClasses : list AnalyzedClass
}.

Definition Program := list AnalyzedFile.

(** [collectAllConfigs] *)
Definition collectAllConfigs (program : Program)
    : list (Symbol * AnalyzedConfig) :=
  fold_left
    (fun configs sourceFile =>
       if isDeclarationFile sourceFile then configs
       else
         fold_left
           (fun configs config =>
              match configSymbol config with
              | Some symbol => JsMap.set symbol config configs
              | None => configs
              end)
           (fileConfigs sourceFile) configs)
    program [].

(** [collectAllClasses] *)
Definition collectAllClasses (program : Program)
    : list (Symbol * AnalyzedClass) :=
  fold_left
    (fun classes sourceFile =>
       if isDeclarationFile sourceFile then classes
       else
         fold_left
           (fun classes cls => JsMap.set (classSymbol cls) cls classes)
           (fileClasses sourceFile) classes)
    program [].

(** Phase 3 of [validate]: the loop over the configurations. Nothing
    catches what [validateConfig] throws, so the first failure ends the
    loop and the function. *)
Fixpoint validateConfigs (depth : nat)
    (entries : list (Symbol * AnalyzedConfig))
    (allConfigs : list (Symbol * AnalyzedConfig))
    (allClasses : list (Symbol * AnalyzedClass))
    (errors : list DIValidationError) : option (list DIValidationError) :=
  match entries with
  | [] => Some errors
  | (_, config) :: rest =>
      if decide (configType config = Builder) then
        match validateConfig depth config allConfigs allClasses with
        | Some configErrors =>
            validateConfigs depth rest allConfigs allClasses
              (errors ++ configErrors)
        | None => None
        end
      else validateConfigs depth rest allConfigs allClasses errors
  end.

(** [validate]; the calls of the logger leave no trace in the result. *)
Definition validate (depth : nat) (program : Program)
    : option (list DIValidationError) :=
  let allConfigs := collectAllConfigs program in
  let allClasses := collectAllClasses program in
  validateConfigs depth allConfigs allConfigs allClasses [].

End Engine.

(** [config] with another list of parents. *)
Definition withParents (config : AnalyzedConfig) (parents : list Symbol)
    : AnalyzedConfig :=
  {| configType := configType config;
     builderId := builderId config;
     variableName := variableName config;
     configSymbol := configSymbol config;
     sourceFile := sourceFile config;
     localProviders := localProviders config;
     listeners := listeners config;
     parentConfigs := parents |}.

(** [config] with other listeners, and a program whose configurations get
    the listeners [g] gives them. *)
Definition withListeners (config : AnalyzedConfig)
    (bindings : list ListenerBinding) : AnalyzedConfig :=
  {| configType := configType config;
     builderId := builderId config;
     variableName := variableName config;
     configSymbol := configSymbol config;
     sourceFile := sourceFile config;
     localProviders := localProviders config;
     listeners := bindings;
     parentConfigs := parentConfigs config |}.

Definition relisten (g : AnalyzedConfig -> list ListenerBinding)
    (program : Program) : Program :=
  map (fun sourceFile =>
         {| isDeclarationFile := isDeclarationFile sourceFile;
            fileConfigs :=
              map (fun config => withListeners config (g config))
                (fileConfigs sourceFile);
            fileClasses := fileClasses sourceFile |})
    program.

(** The values of a map changed by [f], the keys and their order kept. *)
Definition mapValues {K V W : Type} (f : V -> W) (m : list (K * V))
    : list (K * W) :=
  map (fun '(k, v) => (k, f v)) m.

(** The configurations and the classes the analyzers found, in the order of
    the files, those of declaration files left out. *)
Definition programConfigs (program : list AnalyzedFile)
    : list AnalyzedConfig :=
  flat_map fileConfigs
    (filter (fun sourceFile => isDeclarationFile sourceFile = false) program).

Definition programClasses (program : list AnalyzedFile)
    : list AnalyzedClass :=
  flat_map fileClasses
    (filter (fun sourceFile => isDeclarationFile sourceFile = false) program).

(** The builder configurations of a program, in the order [validate] meets
    them. *)
Definition builderConfigs (allConfigs : list (Symbol * AnalyzedConfig))
    : list AnalyzedConfig :=
  filter (fun config => configType config = Builder) (map snd allConfigs).

(** ** The [extends] graph *)

(** [transitiveParent allConfigs config s]: [s] is the identity of a
    configuration of [allConfigs] that [config] extends, directly or through
    other configurations of [allConfigs]. *)
Inductive transitiveParent (allConfigs : list (Symbol * AnalyzedConfig))
    (config : AnalyzedConfig) : Symbol -> Prop :=
| parent_direct s :
    s ∈ parentConfigs config ->
    is_Some (JsMap.get s allConfigs) ->
    transitiveParent allConfigs config s
| parent_step s parentConfig s' :
    transitiveParent allConfigs config s ->
    JsMap.get s allConfigs = Some parentConfig ->
    s' ∈ parentConfigs parentConfig ->
    is_Some (JsMap.get s' allConfigs) ->
    transitiveParent allConfigs config s'.

(** The configurations of [allConfigs] not yet in [visited]: what bounds the
    depth of the guarded recursion. *)
Definition unvisited (allConfigs : list (Symbol * AnalyzedConfig))
    (visited : gset Symbol) : nat :=
  size ((list_to_set (JsMap.keys allConfigs) : gset Symbol) ∖ visited).

(** [entered allConfigs tokens V s]: the configuration [s] has been entered
    by the resolution: its own tokens are bound in [tokens] and the
    configurations it extends are in [V]. *)
Definition entered (allConfigs : list (Symbol * AnalyzedConfig))
    (tokens : list (TokenId * RegisteredProvider))
    (V : gset Symbol) (s : Symbol) : Prop :=
  exists parentConfig,
    JsMap.get s allConfigs = Some parentConfig
    /\ (forall p, p ∈ localProviders parentConfig ->
          is_Some (JsMap.get (tokenId (token p)) tokens))
    /\ (forall s', s' ∈ parentConfigs parentConfig ->
          is_Some (JsMap.get s' allConfigs) -> s' ∈ V).

(** What a call [rec] of the resolution guarantees when it returns. *)
Definition resolveSpec (allConfigs : list (Symbol * AnalyzedConfig))
    (rec : AnalyzedConfig -> gset Symbol ->
           option (list (TokenId * RegisteredProvider) * gset Symbol)) : Prop :=
  forall config V tokens V',
    rec config V = Some (tokens, V') ->
    V ⊆ V'
    /\ (forall p, p ∈ localProviders config ->
          is_Some (JsMap.get (tokenId (token p)) tokens))
    /\ (forall s, s ∈ parentConfigs config ->
          is_Some (JsMap.get s allConfigs) -> s ∈ V')
    /\ (forall s, s ∈ V' -> s ∉ V -> entered allConfigs tokens V' s).

(** [boundIn allConfigs config k b]: [b] is a binding of the token identity
    [k] registered in [config] itself or in a configuration it extends,
    directly or not. *)
Definition boundIn (allConfigs : list (Symbol * AnalyzedConfig))
    (config : AnalyzedConfig) (k : TokenId) (b : RegisteredProvider) : Prop :=
  tokenId (token b) = k
  /\ (b ∈ localProviders config
      \/ exists s parentConfig,
           transitiveParent allConfigs config s
           /\ JsMap.get s allConfigs = Some parentConfig
           /\ b ∈ localProviders parentConfig).

(** No provider of [config], and of the configurations of [allConfigs] it
    extends, registers the class [c]. *)
Definition registersNowhere (allConfigs : list (Symbol * AnalyzedConfig))
    (config : AnalyzedConfig) (c : Symbol) : Prop :=
  (forall p, p ∈ localProviders config -> providerClass p ≠ Some c)
  /\ (forall s parentConfig p,
        transitiveParent allConfigs config s ->
        JsMap.get s allConfigs = Some parentConfig ->
        p ∈ localProviders parentConfig -> providerClass p ≠ Some c).

(** ** Diagnostics of the host *)

(** [ts.DiagnosticCategory] *)
Inductive DiagnosticCategory :=
  CategoryWarning | CategoryError | CategorySuggestion | CategoryMessage.

Record DiagnosticRelatedInformation := {
  driFile : SourceFile;
  driStart : Z;
  driLength : Z;
  driMessageText : string;
  driCategory : DiagnosticCategory;
  driCode : Z
}.

Record Diagnostic := {
  diagFile : SourceFile;
  diagStart : Z;
  diagLength : Z;
  messageText : string;
  category : DiagnosticCategory;
  code : Z;
  source : string;
  diagRelatedInformation : option (list DiagnosticRelatedInformation)
}.

Definition convertRelated (info : RelatedInformation)
    : DiagnosticRelatedInformation :=
  {| driFile := relFile info;
     driStart := relStart info;
     driLength := relLength info;
     driMessageText := relMessage info;
     driCategory := CategoryMessage;
     driCode := 90001 |}.

(** The body of the [map] of [convertToDiagnostics]: the related
    information is set only when the error has some. *)
Definition convertError (error : DIValidationError) : Diagnostic :=
  {| diagFile := file error;
     diagStart := start error;
     diagLength := errLength error;
     messageText := message error;
     category := CategoryError;
     code := 90001;
     source := "di-validator";
     diagRelatedInformation :=
       match relatedInformation error with
       | Some (info :: infos) => Some (map convertRelated (info :: infos))
       | _ => None
       end |}.

(** [convertToDiagnostics] *)
Definition convertToDiagnostics (errors : list DIValidationError)
    : list Diagnostic :=
  map convertError errors.

(** ** The check of the listeners *)

#[global] Instance ListenerBinding_eq_dec : EqDecision ListenerBinding.
Proof. solve_decision. Defined.

(** An error of the check: the entry at fault, its place in the list of
    listeners and the message. *)
Record ListenerError := {
  faultyBinding : ListenerBinding;
  faultyIndex : nat;
  listenerMessage : string
}.

(** Modelled from the spec: the uniqueness of the listeners is checked by
    the types of [defineBuilderConfig], which are not part of the sources
    (its tests and its documentation are). Following the data model (a given
    (event, listener) pair must appear at most once) and scenario E (the same
    pair twice in a configuration's own listeners list gives exactly one
    duplicate-listener error, no partial involved): the entries of the list
    are read in order, [seen] holding those already read, and each entry that
    repeats an earlier one gets one error, with the message the
    documentation gives for it. *)
Fixpoint checkOwnListeners (seen : list ListenerBinding) (index : nat)
    (bindings : list ListenerBinding) : list ListenerError :=
  match bindings with
  | [] => []
  | binding :: rest =>
      (if decide (binding ∈ seen)
       then [ {| faultyBinding := binding; faultyIndex := index;
                 listenerMessage :=
                   "[WireDI] Duplicate listener in the same configuration" |} ]
       else [])
      ++ checkOwnListeners (binding :: seen) (S index) rest
  end.

(** Modelled from the spec: the duplicate-listener errors of a
    configuration, those of its own listeners list. *)
Definition duplicateListenerErrors (config : AnalyzedConfig)
    : list ListenerError :=
  checkOwnListeners [] 0 (listeners config).

(** ** A small program

    Three files: [appFile] holds the builder configurations, [partialFile]
    the partial ones and [servicesFile] the classes. The nodes 10 to 19 lie
    in the first file, 20 to 29 in the second and 30 to 39 in the third. *)

Module Demo.

Definition appFile : SourceFile := 1%positive.
Definition partialFile : SourceFile := 2%positive.
Definition servicesFile : SourceFile := 3%positive.

Definition loggerType : TsType := 1%positive.
Definition consoleLoggerType : TsType := 2%positive.
Definition productRepositoryType : TsType := 3%positive.
Definition userServiceType : TsType := 4%positive.

(** [ConsoleLogger] implements [Logger]; apart from that a type is only
    assignable to itself. *)
Definition demoHost : TsHost := {|
  getSourceFile n := Z.to_pos (Z.pos n / 10);
  getStart n f := Z.pos n * 100;
  getWidth n f := 7;
  isTypeAssignableTo a b :=
    bool_decide (a = b \/ (a = consoleLoggerType /\ b = loggerType));
  typeToString t :=
    match t with
    | 1%positive => "Logger"
    | 2%positive => "ConsoleLogger"
    | 3%positive => "ProductRepositoryInterface"
    | 4%positive => "UserService"
    | _ => "unknown"
    end
|}.

Definition userServiceSymbol : Symbol := 100%positive.
Definition consoleLoggerSymbol : Symbol := 101%positive.
Definition productRepositorySymbol : Symbol := 102%positive.

Definition loggerToken : NormalizedToken :=
  {| tokenId := "Logger"; displayName := "Logger" |}.
Definition userServiceToken : NormalizedToken :=
  {| tokenId := "UserService"; displayName := "UserService" |}.

(** [{ token: UserService }], in the builder's file and in a partial's. *)
Definition userServiceProvider : RegisteredProvider :=
  {| token := userServiceToken; registrationType := RegProviderClass;
     providerClass := Some userServiceSymbol;
     providerClassName := Some "UserService";
     providerType := Some userServiceType; node := 11%positive |}.
Definition userServiceInPartial : RegisteredProvider :=
  {| token := userServiceToken; registrationType := RegProviderClass;
     providerClass := Some userServiceSymbol;
     providerClassName := Some "UserService";
     providerType := Some userServiceType; node := 21%positive |}.

(** [{ token: TOKENS.Logger, provider: ConsoleLogger }] *)
Definition loggerProvider : RegisteredProvider :=
  {| token := loggerToken; registrationType := RegProviderClass;
     providerClass := Some consoleLoggerSymbol;
     providerClassName := Some "ConsoleLogger";
     providerType := Some consoleLoggerType; node := 22%positive |}.

(** [{ token: TOKENS.Logger, provider: ProductRepository }]: the wrong
    provider for the token. *)
Definition wrongLoggerProvider : RegisteredProvider :=
  {| token := loggerToken; registrationType := RegProviderClass;
     providerClass := Some productRepositorySymbol;
     providerClassName := Some "ProductRepository";
     providerType := Some productRepositoryType; node := 23%positive |}.

(** [{ token: TOKENS.Logger, factory: ... }], with a type that would not
    fit had it been checked. *)
Definition loggerFactory : RegisteredProvider :=
  {| token := loggerToken; registrationType := RegFactory;
     providerClass := None; providerClassName := None;
     providerType := Some productRepositoryType; node := 12%positive |}.

(** [constructor(private logger: Logger)] *)
Definition loggerDependency : RequiredDependency :=
  {| depToken := loggerToken; expectedType := Some loggerType;
     parameterNode := 31%positive; parameterIndex := 0 |}.

Definition userService : AnalyzedClass :=
  {| className := "UserService"; classSymbol := userServiceSymbol;
     dependencies := [loggerDependency] |}.

Definition appSymbol : Symbol := 200%positive.
Definition servicesPartialSymbol : Symbol := 201%positive.
Definition loggingPartialSymbol : Symbol := 202%positive.

(** Scenario A: the builder registers [UserService] and nothing binds
    [Logger]. *)
Definition appConfig : AnalyzedConfig :=
  {| configType := Builder; builderId := Some "app";
     variableName := Some "config"; configSymbol := Some appSymbol;
     sourceFile := appFile; localProviders := [userServiceProvider];
     listeners := []; parentConfigs := [] |}.

Definition servicesFileFacts : AnalyzedFile :=
  {| isDeclarationFile := false; fileConfigs := [];
     fileClasses := [userService] |}.

Definition scenarioA : Program :=
  [ {| isDeclarationFile := false; fileConfigs := [appConfig];
       fileClasses := [] |};
    servicesFileFacts ].

(** The same registration made in a partial of another file, which the
    builder extends. *)
Definition servicesPartial : AnalyzedConfig :=
  {| configType := Partial; builderId := None;
     variableName := Some "servicesPartial";
     configSymbol := Some servicesPartialSymbol;
     sourceFile := partialFile; localProviders := [userServiceInPartial];
     listeners := []; parentConfigs := [] |}.

Definition appExtendingServices : AnalyzedConfig :=
  {| configType := Builder; builderId := Some "app";
     variableName := Some "config"; configSymbol := Some appSymbol;
     sourceFile := appFile; localProviders := [];
     listeners := []; parentConfigs := [servicesPartialSymbol] |}.

Definition scenarioInherited : Program :=
  [ {| isDeclarationFile := false; fileConfigs := [appExtendingServices];
       fileClasses := [] |};
    {| isDeclarationFile := false; fileConfigs := [servicesPartial];
       fileClasses := [] |};
    servicesFileFacts ].

(** Scenario B: a partial binds [Logger] to [ConsoleLogger]. *)
Definition loggingPartial : AnalyzedConfig :=
  {| configType := Partial; builderId := None;
     variableName := Some "loggingPartial";
     configSymbol := Some loggingPartialSymbol;
     sourceFile := partialFile; localProviders := [loggerProvider];
     listeners := []; parentConfigs := [] |}.

Definition appExtendingLogging : AnalyzedConfig :=
  {| configType := Builder; builderId := Some "app";
     variableName := Some "config"; configSymbol := Some appSymbol;
     sourceFile := appFile; localProviders := [userServiceProvider];
     listeners := []; parentConfigs := [loggingPartialSymbol] |}.

Definition configsB : list (Symbol * AnalyzedConfig) :=
  [ (appSymbol, appExtendingLogging); (loggingPartialSymbol, loggingPartial) ].

(** A diamond: the builder extends [left] and [right], and both extend
    [base]. *)
Definition baseSymbol : Symbol := 210%positive.
Definition leftSymbol : Symbol := 211%positive.
Definition rightSymbol : Symbol := 212%positive.
Definition diamondSymbol : Symbol := 213%positive.

Definition partialExtending (name : string) (symbol : Symbol)
    (providers : list RegisteredProvider) (parents : list Symbol)
    : AnalyzedConfig :=
  {| configType := Partial; builderId := None; variableName := Some name;
     configSymbol := Some symbol; sourceFile := partialFile;
     localProviders := providers; listeners := []; parentConfigs := parents |}.

Definition basePartial : AnalyzedConfig :=
  partialExtending "base" baseSymbol [loggerProvider] [].
Definition leftPartial : AnalyzedConfig :=
  partialExtending "left" leftSymbol [] [baseSymbol].
Definition rightPartial : AnalyzedConfig :=
  partialExtending "right" rightSymbol [] [baseSymbol].

Definition diamondBuilder : AnalyzedConfig :=
  {| configType := Builder; builderId := Some "diamond";
     variableName := Some "diamond"; configSymbol := Some diamondSymbol;
     sourceFile := appFile; localProviders := [userServiceProvider];
     listeners := []; parentConfigs := [leftSymbol; rightSymbol] |}.

Definition diamondConfigs : list (Symbol * AnalyzedConfig) :=
  [ (diamondSymbol, diamondBuilder); (leftSymbol, leftPartial);
    (rightSymbol, rightPartial); (baseSymbol, basePartial) ].

(** A builder whose [extends] list leads back to itself, next to the
    builder of scenario A. *)
Definition cyclicSymbol : Symbol := 220%positive.

Definition cyclicBuilder : AnalyzedConfig :=
  {| configType := Builder; builderId := Some "cyclic";
     variableName := Some "cyclic"; configSymbol := Some cyclicSymbol;
     sourceFile := appFile; localProviders := [];
     listeners := []; parentConfigs := [cyclicSymbol] |}.

Definition scenarioCyclic : Program :=
  [ {| isDeclarationFile := false; fileConfigs := [appConfig; cyclicBuilder];
       fileClasses := [] |};
    servicesFileFacts ].

(** Scenario E: the same (event, listener) pair twice in the builder's own
    listeners. *)
Definition userCreatedEvent : Symbol := 300%positive.
Definition emailListener : Symbol := 301%positive.

Definition builderWithDuplicateListener : AnalyzedConfig :=
  {| configType := Builder; builderId := Some "app";
     variableName := Some "config"; configSymbol := Some appSymbol;
     sourceFile := appFile; localProviders := [userServiceProvider];
     listeners :=
       [ {| event := userCreatedEvent; listener := emailListener |};
         {| event := userCreatedEvent; listener := emailListener |} ];
     parentConfigs := [] |}.

Definition scenarioE : Program :=
  [ {| isDeclarationFile := false;
       fileConfigs := [builderWithDuplicateListener]; fileClasses := [] |};
    servicesFileFacts ].

(** A builder that extends the partial of the services and, after it, the
    partial of the logger. *)
Definition appExtendingBoth : AnalyzedConfig :=
  {| configType := Builder; builderId := Some "app";
     variableName := Some "config"; configSymbol := Some appSymbol;
     sourceFile := appFile; localProviders := [];
     listeners := [];
     parentConfigs := [servicesPartialSymbol; loggingPartialSymbol] |}.

Definition configsBoth : list (Symbol * AnalyzedConfig) :=
  [ (appSymbol, appExtendingBoth); (servicesPartialSymbol, servicesPartial);
    (loggingPartialSymbol, loggingPartial) ].

(** A builder whose only provider is a factory. *)
Definition factoryOnlyBuilder : AnalyzedConfig :=
  {| configType := Builder; builderId := Some "factories";
     variableName := Some "factories"; configSymbol := Some appSymbol;
     sourceFile := appFile; localProviders := [loggerFactory];
     listeners := []; parentConfigs := [] |}.

(** A program made of partial configurations only. *)
Definition partialsOnly : Program :=
  [ {| isDeclarationFile := false;
       fileConfigs := [servicesPartial; loggingPartial]; fileClasses := [] |};
    servicesFileFacts ].

(** Scenario C: the builder binds [Logger] to a provider of another type.
    Alone in its program, and next to the builder that extends itself. *)
Definition appWithWrongLogger : AnalyzedConfig :=
  {| configType := Builder; builderId := Some "app";
     variableName := Some "config"; configSymbol := Some appSymbol;
     sourceFile := appFile;
     localProviders := [userServiceProvider; wrongLoggerProvider];
     listeners := []; parentConfigs := [] |}.

Definition scenarioC : Program :=
  [ {| isDeclarationFile := false; fileConfigs := [appWithWrongLogger];
       fileClasses := [] |};
    servicesFileFacts ].

Definition scenarioCNextToCycle : Program :=
  [ {| isDeclarationFile := false;
       fileConfigs := [appWithWrongLogger; cyclicBuilder];
       fileClasses := [] |};
    servicesFileFacts ].

(** How far a configuration of the diamond is from its base. *)
Definition diamondRank (config : AnalyzedConfig) : nat :=
  match parentConfigs config with
  | [] => 0
  | [_] => 1
  | _ => 2
  end.

End Demo.

(** * Properties *)

(** ** Maps *)

Module JsMapFacts.
Section JsMapFacts.
Context {K V : Type} `{EqDecision K}.
Import JsMap.

Lemma get_set_eq (k : K) (v : V) (m : list (K * V)) : get k (set k v m) = Some v.
Proof.
  induction m as [|[k' v'] r IH]; simpl.
  - by rewrite decide_True.
  - destruct (decide (k = k')) as [->|Hne]; simpl.
    + by rewrite decide_True.
    + by rewrite decide_False.
Qed.

Lemma get_set_ne (k k' : K) (v : V) (m : list (K * V)) : k ≠ k' -> get k' (set k v m) = get k' m.
Proof.
  intros Hne. induction m as [|[k0 v0] r IH]; simpl.
  - by rewrite decide_False.
  - destruct (decide (k = k0)) as [->|Hne0]; simpl.
    + by rewrite !(decide_False (P := k' = k0)).
    + destruct (decide (k' = k0)); [done | apply IH].
Qed.

Lemma get_elem_of (k : K) (v : V) (m : list (K * V)) :
  get k m = Some v -> (k, v) ∈ m.
Proof.
  induction m as [|[k' v'] r IH]; simpl; [done|].
  destruct (decide (k = k')) as [->|Hne].
  - intros [= ->]. left.
  - intros Hg. right. by apply IH.
Qed.

Lemma get_is_Some_keys (k : K) (m : list (K * V)) :
  is_Some (get k m) <-> k ∈ keys m.
Proof.
  unfold keys. induction m as [|[k' v'] r IH]; simpl.
  - split; [by intros [? ?] | by intros ?%elem_of_nil].
  - destruct (decide (k = k')) as [->|Hne].
    + split; [intros _; left | by eexists].
    + rewrite IH. split; [by right|].
      by intros [?|?]%elem_of_cons.
Qed.

Lemma elem_of_set (k k' : K) (v v' : V) (m : list (K * V)) :
  (k', v') ∈ set k v m -> (k', v') = (k, v) \/ (k', v') ∈ m.
Proof.
  induction m as [|[k0 v0] r IH]; simpl.
  - intros ->%list_elem_of_singleton. by left.
  - destruct (decide (k = k0)) as [->|Hne].
    + intros [->|?]%elem_of_cons; [by left | right; by right].
    + intros [->|Hin]%elem_of_cons; [right; left|].
      destruct (IH Hin) as [?|?]; [by left | right; by right].
Qed.

Lemma is_Some_get_set (k k' : K) (v : V) (m : list (K * V)) :
  is_Some (get k' (set k v m)) <-> k' = k \/ is_Some (get k' m).
Proof.
  destruct (decide (k = k')) as [->|Hne].
  - rewrite get_set_eq. split; [by left | by eexists].
  - rewrite get_set_ne by done. split; [by right|].
    by intros [->|?].
Qed.
End JsMapFacts.
End JsMapFacts.

(** ** Strings *)

Lemma string_app_assoc (s1 s2 s3 : string) :
  (s1 +:+ s2) +:+ s3 = s1 +:+ s2 +:+ s3.
Proof.
  induction s1 as [|a s1 IH]; [done|].
  change (String a ((s1 +:+ s2) +:+ s3) = String a (s1 +:+ s2 +:+ s3)).
  by rewrite IH.
Qed.

Lemma names_here (s post : string) : names (s +:+ post) s.
Proof. by exists "", post. Qed.

Lemma names_skip (p m s : string) : names m s -> names (p +:+ m) s.
Proof.
  intros (pre & post & ->). exists (p +:+ pre), post.
  by rewrite string_app_assoc.
Qed.

Ltac solve_names :=
  simpl; repeat first [apply names_here | apply names_skip].

(** ** Loops as concatenations *)

Lemma fold_left_app_flat_map {A B : Type} (f : A -> list B) (l : list A)
    (init : list B) :
  fold_left (fun acc x => acc ++ f x) l init = init ++ flat_map f l.
Proof.
  revert init. induction l as [|x l IH]; intros init; simpl.
  - by rewrite app_nil_r.
  - by rewrite IH, <- app_assoc.
Qed.

Section EngineFacts.
Context `{host : TsHost}.

Lemma validateClassDependencies_flat_map analyzedClass providedTokens
    provider config :
  validateClassDependencies analyzedClass providedTokens provider config
  = flat_map (dependencyErrors analyzedClass providedTokens provider config)
      (dependencies analyzedClass).
Proof. unfold validateClassDependencies. by rewrite fold_left_app_flat_map. Qed.

Lemma createMissingDependencyError_kind analyzedClass dependency provider config :
  let e := createMissingDependencyError analyzedClass dependency provider config in
  isMissingDependency e = true /\ isTypeMismatch e = false
  /\ isDuplicateListener e = false.
Proof. done. Qed.

Lemma checkTypeCompatibility_kind dependency registeredProvider analyzedClass
    config e :
  checkTypeCompatibility dependency registeredProvider analyzedClass config
    = Some e ->
  isTypeMismatch e = true /\ isMissingDependency e = false
  /\ isDuplicateListener e = false.
Proof.
  unfold checkTypeCompatibility.
  destruct (expectedType dependency), (providerType registeredProvider);
    try done.
  case_bool_decide; [done|].
  destruct (negb _); [|done].
  by intros [= <-].
Qed.
End EngineFacts.

(** ** One dependency

    The errors of a configuration are the errors of the dependencies of its
    classes, one after the other ([validateClassDependencies_flat_map], and
    [validateConfig_flat_map] further down): what holds of the errors of one
    dependency, [dependencyErrors], holds of its share of the errors of
    [validate]. *)

Section DependencyFacts.
Context `{host : TsHost}.

(** The missing-dependency error as the engine builds it: what it names
    and where it points. Its primary file is the file of the configuration
    under validation, and its span is that of the node of the provider read
    against that file. *)
Lemma createMissingDependencyError_shape analyzedClass dependency provider
    config :
  let e := createMissingDependencyError analyzedClass dependency provider config in
  names (message e) (className analyzedClass)
  /\ names (message e) (displayName (depToken dependency))
  /\ names (message e) (pretty (parameterIndex dependency))
  /\ file e = sourceFile config
  /\ start e = getStart (node provider) (sourceFile config)
  /\ errLength e = getWidth (node provider) (sourceFile config)
  /\ exists info,
       relatedInformation e = Some [info]
       /\ relFile info = getSourceFile (parameterNode dependency)
       /\ relStart info = getStart0 (parameterNode dependency)
       /\ relLength info = getWidth0 (parameterNode dependency).
Proof.
  intros e. subst e. repeat split; try solve_names.
  eexists. repeat split.
Qed.

Lemma dependencyErrors_missing analyzedClass providedTokens provider config
    dependency :
  JsMap.get (tokenId (depToken dependency)) providedTokens = None ->
  dependencyErrors analyzedClass providedTokens provider config dependency
  = [createMissingDependencyError analyzedClass dependency provider config].
Proof. unfold dependencyErrors. by intros ->. Qed.

(** C9: the errors of a class are those of its dependencies, one after the
    other, and one dependency gives at most one diagnostic: the
    missing-dependency one when its token identity has no entry in the map of
    provided tokens, and otherwise nothing or one type-mismatch diagnostic,
    never both kinds. *)
Theorem dependency_yields_at_most_one_diagnostic analyzedClass providedTokens
    provider config dependency :
  let errs :=
    dependencyErrors analyzedClass providedTokens provider config dependency in
  validateClassDependencies analyzedClass providedTokens provider config
  = flat_map (dependencyErrors analyzedClass providedTokens provider config)
      (dependencies analyzedClass)
  /\ (List.length errs <= 1)%nat
  /\ match JsMap.get (tokenId (depToken dependency)) providedTokens with
     | None =>
         exists e, errs = [e]
           /\ isMissingDependency e = true /\ isTypeMismatch e = false
     | Some _ =>
         errs = []
         \/ exists e, errs = [e]
              /\ isTypeMismatch e = true /\ isMissingDependency e = false
     end.
Proof.
  intros errs. subst errs.
  split; [apply validateClassDependencies_flat_map|].
  unfold dependencyErrors.
  destruct (JsMap.get _ providedTokens) as [rp|].
  - destruct (checkTypeCompatibility dependency rp analyzedClass config)
      as [e|] eqn:He; simpl.
    + split; [lia|]. right. exists e.
      apply checkTypeCompatibility_kind in He as (? & ? & _). by split.
    + split; [lia | by left].
  - split; [simpl; lia|]. eexists. split; [done|].
    split; reflexivity.
Qed.

(** C3: a dependency whose token resolves to a factory or value binding
    gets no type-mismatch diagnostic (and no diagnostic at all), whatever
    the type recorded for the binding and whatever the checker answers. *)
Theorem factory_and_value_bindings_are_exempt analyzedClass providedTokens
    provider config dependency registeredProvider :
  JsMap.get (tokenId (depToken dependency)) providedTokens
    = Some registeredProvider ->
  registrationType registeredProvider = RegFactory
    \/ registrationType registeredProvider = RegValue ->
  checkTypeCompatibility dependency registeredProvider analyzedClass config
    = None
  /\ dependencyErrors analyzedClass providedTokens provider config dependency
     = [].
Proof.
  intros Hget Hkind.
  assert (checkTypeCompatibility dependency registeredProvider analyzedClass
            config = None) as Hnone.
  { unfold checkTypeCompatibility.
    destruct (expectedType dependency), (providerType registeredProvider);
      try done.
    by rewrite bool_decide_eq_true_2. }
  split; [done|]. unfold dependencyErrors. by rewrite Hget, Hnone.
Qed.

(** The turn of a dependency whose token resolves to a provider-class
    binding with a recorded output type: one type-mismatch error when the
    checker finds the output type not assignable to the expected type, and
    nothing when it is assignable. The error sits on the node of the
    registration, in the file of that node; it names both type strings, the
    class, the token and the parameter ordinal, and its related location is
    the parameter. *)
Lemma dependencyErrors_type_mismatch analyzedClass providedTokens
    provider config dependency registeredProvider providerTy expectedTy :
  JsMap.get (tokenId (depToken dependency)) providedTokens
    = Some registeredProvider ->
  registrationType registeredProvider = RegProviderClass ->
  providerType registeredProvider = Some providerTy ->
  expectedType dependency = Some expectedTy ->
  let errs :=
    dependencyErrors analyzedClass providedTokens provider config dependency in
  (List.length (filter (fun e => isTypeMismatch e = true) errs) = 1%nat
     <-> isTypeAssignableTo providerTy expectedTy = false)
  /\ if isTypeAssignableTo providerTy expectedTy then errs = []
     else
       exists e,
         errs = [e]
         /\ isTypeMismatch e = true
         /\ file e = getSourceFile (node registeredProvider)
         /\ start e = getStart0 (node registeredProvider)
         /\ errLength e = getWidth0 (node registeredProvider)
         /\ names (message e) (typeToString expectedTy)
         /\ names (message e) (typeToString providerTy)
         /\ names (message e) (className analyzedClass)
         /\ names (message e) (displayName (depToken dependency))
         /\ names (message e) (pretty (parameterIndex dependency))
         /\ exists info,
              relatedInformation e = Some [info]
              /\ relFile info = getSourceFile (parameterNode dependency)
              /\ relStart info = getStart0 (parameterNode dependency)
              /\ relLength info = getWidth0 (parameterNode dependency).
Proof.
  intros Hget Hkind Hpt Het errs.
  assert (if isTypeAssignableTo providerTy expectedTy then errs = []
          else exists e, errs = [e] /\ isTypeMismatch e = true
                 /\ e = default e (checkTypeCompatibility dependency
                                     registeredProvider analyzedClass config))
    as Herrs.
  { subst errs. unfold dependencyErrors, checkTypeCompatibility.
    rewrite Hget, Hpt, Het, Hkind.
    rewrite bool_decide_eq_false_2 by (intros [?|?]; discriminate).
    destruct (isTypeAssignableTo providerTy expectedTy); simpl; [done|].
    eexists. split; [reflexivity|]. by split. }
  clearbody errs. split.
  - destruct (isTypeAssignableTo providerTy expectedTy).
    + subst errs. split; intros; discriminate.
    + destruct Herrs as (e & -> & Hk & _). split; [done|]. intros _.
      rewrite filter_cons_True by done. done.
  - destruct (isTypeAssignableTo providerTy expectedTy) eqn:Hassign; [done|].
    destruct Herrs as (e & -> & Hk & He). exists e.
    split; [done|]. split; [done|]. rewrite He. clear He Hk.
    unfold checkTypeCompatibility. rewrite Hpt, Het, Hkind.
    rewrite bool_decide_eq_false_2 by (intros [?|?]; discriminate).
    rewrite Hassign. simpl.
    repeat split; try solve_names.
    eexists. repeat split.
Qed.

End DependencyFacts.

(** ** Provided tokens: the two ways a mapping is extended *)

Section TokenMaps.
Import JsMap JsMapFacts.

Lemma overlayProviders_snoc providers p tokens :
  overlayProviders (providers ++ [p]) tokens
  = set (tokenId (token p)) p (overlayProviders providers tokens).
Proof. unfold overlayProviders. by rewrite fold_left_app. Qed.

Lemma overlayProviders_bound_mono providers tokens k :
  is_Some (get k tokens) ->
  is_Some (get k (overlayProviders providers tokens)).
Proof.
  induction providers as [|p ps IH] using rev_ind; intros Hk; [done|].
  rewrite overlayProviders_snoc. apply is_Some_get_set. right. by apply IH.
Qed.

Lemma overlayProviders_bound_local providers tokens p :
  p ∈ providers ->
  is_Some (get (tokenId (token p)) (overlayProviders providers tokens)).
Proof.
  induction providers as [|q ps IH] using rev_ind; intros Hin.
  - by apply elem_of_nil in Hin.
  - rewrite overlayProviders_snoc. apply is_Some_get_set.
    apply elem_of_app in Hin as [Hin| ->%list_elem_of_singleton].
    + right. by apply IH.
    + by left.
Qed.

(** Where a binding of the overlaid mapping comes from: a local provider
    with that token identity, or the mapping below when no local provider
    has it. *)
Lemma overlayProviders_get providers tokens k b :
  get k (overlayProviders providers tokens) = Some b ->
  (b ∈ providers /\ tokenId (token b) = k)
  \/ (get k tokens = Some b
      /\ forall p, p ∈ providers -> tokenId (token p) ≠ k).
Proof.
  revert b. induction providers as [|q ps IH] using rev_ind; intros b Hget.
  - right. split; [done|]. by intros p ?%elem_of_nil.
  - rewrite overlayProviders_snoc in Hget.
    destruct (decide (tokenId (token q) = k)) as [<-|Hne].
    + rewrite get_set_eq in Hget. injection Hget as <-.
      left. split; [|done]. apply elem_of_app. right. left.
    + rewrite get_set_ne in Hget by done.
      destruct (IH b Hget) as [[Hin Hid]|[Hg Hno]].
      * left. split; [|done]. apply elem_of_app. by left.
      * right. split; [done|].
        intros p [?| ->%list_elem_of_singleton]%elem_of_app; [by apply Hno|done].
Qed.

Lemma overlayProviders_get_other providers tokens k :
  (forall p, p ∈ providers -> tokenId (token p) ≠ k) ->
  get k (overlayProviders providers tokens) = get k tokens.
Proof.
  induction providers as [|q ps IH] using rev_ind; intros Hno; [done|].
  rewrite overlayProviders_snoc, get_set_ne.
  - apply IH. intros p Hp. apply Hno, elem_of_app. by left.
  - apply Hno, elem_of_app. right. left.
Qed.

Lemma mergeTokens_snoc parentTokens k p tokens :
  mergeTokens (parentTokens ++ [(k, p)]) tokens
  = set k p (mergeTokens parentTokens tokens).
Proof. unfold mergeTokens. by rewrite fold_left_app. Qed.

Lemma mergeTokens_bound_mono parentTokens tokens k :
  is_Some (get k tokens) -> is_Some (get k (mergeTokens parentTokens tokens)).
Proof.
  induction parentTokens as [|[k' p] ps IH] using rev_ind; intros Hk; [done|].
  rewrite mergeTokens_snoc. apply is_Some_get_set. right. by apply IH.
Qed.

Lemma mergeTokens_bound_parent parentTokens tokens k :
  is_Some (get k parentTokens) ->
  is_Some (get k (mergeTokens parentTokens tokens)).
Proof.
  rewrite get_is_Some_keys. unfold keys.
  induction parentTokens as [|[k' p] ps IH] using rev_ind; intros Hk.
  - by apply elem_of_nil in Hk.
  - rewrite mergeTokens_snoc. apply is_Some_get_set.
    rewrite map_app in Hk.
    apply elem_of_app in Hk as [Hk| ->%list_elem_of_singleton].
    + right. by apply IH.
    + by left.
Qed.

Lemma mergeTokens_elem_of parentTokens tokens k b :
  (k, b) ∈ mergeTokens parentTokens tokens ->
  (k, b) ∈ parentTokens \/ (k, b) ∈ tokens.
Proof.
  revert b. induction parentTokens as [|[k' p] ps IH] using rev_ind;
    intros b Hin; [by right|].
  rewrite mergeTokens_snoc in Hin.
  apply elem_of_set in Hin as [[= -> ->]|Hin].
  - left. apply elem_of_app. right. left.
  - destruct (IH b Hin) as [?|?]; [left | by right].
    apply elem_of_app. by left.
Qed.
End TokenMaps.

(** ** Provided tokens: the guarded recursion returns *)

Set Warnings "-clear-no-such-hyp".

Section ResolveReturns.
Context `{host : TsHost}.
Variable allConfigs : list (Symbol * AnalyzedConfig).

Lemma unvisited_mono (V V' : gset Symbol) :
  V ⊆ V' -> (unvisited allConfigs V' <= unvisited allConfigs V)%nat.
Proof. intros HV. unfold unvisited. apply subseteq_size. set_solver. Qed.

Lemma unvisited_enter (V : gset Symbol) s parentConfig :
  JsMap.get s allConfigs = Some parentConfig -> s ∉ V ->
  (unvisited allConfigs ({[s]} ∪ V) < unvisited allConfigs V)%nat.
Proof.
  intros Hget Hs. unfold unvisited. apply subset_size.
  assert (s ∈ (list_to_set (JsMap.keys allConfigs) : gset Symbol)) as Hin.
  { apply elem_of_list_to_set, JsMapFacts.get_is_Some_keys. by eexists. }
  set_solver.
Qed.

Lemma size_list_to_set_le (l : list Symbol) :
  (size (list_to_set l : gset Symbol) <= List.length l)%nat.
Proof.
  induction l as [|x l IH].
  - by rewrite list_to_set_nil, size_empty.
  - rewrite list_to_set_cons, size_union_alt, size_singleton. simpl.
    assert ((list_to_set l : gset Symbol) ∖ {[x]} ⊆ list_to_set l) as Hsub
      by set_solver.
    apply subseteq_size in Hsub. lia.
Qed.

Lemma unvisited_empty :
  (unvisited allConfigs ∅ <= List.length allConfigs)%nat.
Proof.
  unfold unvisited, JsMap.keys. rewrite difference_empty_L.
  etrans; [apply size_list_to_set_le|]. by rewrite length_map.
Qed.

Lemma resolveParents_returns rec d :
  (forall parentConfig V,
      (unvisited allConfigs V < d)%nat ->
      exists tokens V', rec parentConfig V = Some (tokens, V') /\ V ⊆ V') ->
  forall parents tokens V,
    (unvisited allConfigs V <= d)%nat ->
    exists tokens' V',
      resolveParents rec allConfigs parents tokens V = Some (tokens', V')
      /\ V ⊆ V'.
Proof.
  intros Hrec parents.
  induction parents as [|s rest IH]; intros tokens V Hd; simpl.
  - by exists tokens, V.
  - destruct (JsMap.get s allConfigs) as [parentConfig|] eqn:Hget;
      [|by apply IH].
    destruct (decide (s ∈ V)) as [Hin|Hnin]; [by apply IH|].
    destruct (Hrec parentConfig ({[s]} ∪ V)) as (pt & V1 & -> & HV1).
    { pose proof (unvisited_enter V s parentConfig Hget Hnin). lia. }
    destruct (IH (mergeTokens pt tokens) V1) as (m & V' & -> & HV').
    { assert (V ⊆ V1) as Hsub by set_solver.
      apply unvisited_mono in Hsub. lia. }
    exists m, V'. split; [done|]. set_solver.
Qed.

Lemma resolveAllProvidedTokens_returns_from depth config V :
  (unvisited allConfigs V < depth)%nat ->
  exists tokens V',
    resolveAllProvidedTokens depth config allConfigs V = Some (tokens, V')
    /\ V ⊆ V'.
Proof.
  revert config V. induction depth as [|d IH]; intros config V Hd; [lia|].
  simpl.
  destruct (resolveParents_returns
              (fun parentConfig visited =>
                 resolveAllProvidedTokens d parentConfig allConfigs visited)
              d IH (parentConfigs config) [] V) as (m & V' & -> & HV');
    [lia|].
  by eexists _, V'.
Qed.

(** With a call stack deeper than the number of configurations, the
    resolution returns, also on a cyclic [extends] graph. *)
Lemma resolveAllProvidedTokens_returns depth config V :
  (List.length allConfigs < depth)%nat ->
  exists tokens V',
    resolveAllProvidedTokens depth config allConfigs V = Some (tokens, V').
Proof.
  intros Hd.
  destruct (resolveAllProvidedTokens_returns_from depth config V)
    as (m & V' & ? & _); [|by eauto].
  assert (∅ ⊆ V) as Hsub by set_solver.
  apply unvisited_mono in Hsub. pose proof unvisited_empty. lia.
Qed.
End ResolveReturns.

(** ** Provided tokens: every ancestor is entered and its tokens are bound *)

Section ResolveCovers.
Context `{host : TsHost}.
Variable allConfigs : list (Symbol * AnalyzedConfig).

Lemma entered_mono tokens tokens' (V V' : gset Symbol) s :
  (forall k, is_Some (JsMap.get k tokens) -> is_Some (JsMap.get k tokens')) ->
  V ⊆ V' -> entered allConfigs tokens V s -> entered allConfigs tokens' V' s.
Proof.
  intros Htok HV (pc & Hget & Hloc & Hpar). exists pc.
  split; [done|]. split; [by auto|]. intros s' ? ?. apply HV. by auto.
Qed.

Lemma resolveParents_covers rec :
  resolveSpec allConfigs rec ->
  forall parents tokens V tokens' V',
    resolveParents rec allConfigs parents tokens V = Some (tokens', V') ->
    V ⊆ V'
    /\ (forall k, is_Some (JsMap.get k tokens) -> is_Some (JsMap.get k tokens'))
    /\ (forall s, s ∈ parents -> is_Some (JsMap.get s allConfigs) -> s ∈ V')
    /\ (forall s, s ∈ V' -> s ∉ V -> entered allConfigs tokens' V' s).
Proof.
  intros Hrec parents.
  induction parents as [|s rest IH]; intros tokens V tokens' V' Hres;
    simpl in Hres.
  - injection Hres as <- <-. repeat split; try done.
    by intros s ?%elem_of_nil.
  - destruct (JsMap.get s allConfigs) as [parentConfig|] eqn:Hget.
    + destruct (decide (s ∈ V)) as [Hin|Hnin].
      * destruct (IH _ _ _ _ Hres) as (HV & Htok & Hpar & Hent).
        repeat split; try done.
        intros s' [->|?]%elem_of_cons ?; [by apply HV | by apply Hpar].
      * destruct (rec parentConfig ({[s]} ∪ V)) as [[pt V1]|] eqn:Hcall;
          [|done].
        destruct (Hrec _ _ _ _ Hcall) as (HV1 & Hloc1 & Hpar1 & Hent1).
        destruct (IH _ _ _ _ Hres) as (HV & Htok & Hpar & Hent).
        assert (forall k, is_Some (JsMap.get k pt) ->
                          is_Some (JsMap.get k tokens')) as Hpt.
        { intros k Hk. by apply Htok, mergeTokens_bound_parent. }
        split; [set_solver|]. split.
        { intros k Hk. by apply Htok, mergeTokens_bound_mono. }
        split.
        { intros s' [->|?]%elem_of_cons ?; [set_solver | by apply Hpar]. }
        intros s' Hs' HnV.
        destruct (decide (s' ∈ V1)) as [HinV1|HninV1]; [|by apply Hent].
        destruct (decide (s' = s)) as [->|Hne].
        -- exists parentConfig. split; [done|]. split.
           ++ intros p Hp. by apply Hpt, Hloc1.
           ++ intros s'' Hs'' Hsome. by apply HV, Hpar1.
        -- apply (entered_mono pt tokens' V1 V'); [done..|].
           apply Hent1; [done|]. set_solver.
    + destruct (IH _ _ _ _ Hres) as (HV & Htok & Hpar & Hent).
      repeat split; try done.
      intros s' [->|?]%elem_of_cons Hsome; [|by apply Hpar].
      rewrite Hget in Hsome. by destruct Hsome.
Qed.

Lemma resolveAllProvidedTokens_covers depth :
  resolveSpec allConfigs (fun config V =>
                 resolveAllProvidedTokens depth config allConfigs V).
Proof.
  induction depth as [|d IH]; intros config V tokens V' Hres; [done|].
  simpl in Hres.
  destruct (resolveParents _ _ _ _ _) as [[inherited V1]|] eqn:Hloop; [|done].
  injection Hres as <- <-.
  destruct (resolveParents_covers _ IH _ _ _ _ _ Hloop)
    as (HV & _ & Hpar & Hent).
  split; [done|]. split.
  { intros p Hp. by apply overlayProviders_bound_local. }
  split; [done|].
  intros s Hs HnV. apply (entered_mono inherited _ V1 V1); [|done|by apply Hent].
  intros k Hk. by apply overlayProviders_bound_mono.
Qed.

(** Started from a set that holds no transitive parent of [config], the
    resolution enters each of them and binds each of their tokens. *)
Lemma resolveAllProvidedTokens_enters_ancestors depth config V tokens V' :
  resolveAllProvidedTokens depth config allConfigs V = Some (tokens, V') ->
  (forall s, transitiveParent allConfigs config s -> s ∉ V) ->
  forall s, transitiveParent allConfigs config s -> entered allConfigs tokens V' s.
Proof.
  intros Hres Hfresh s Hs.
  destruct (resolveAllProvidedTokens_covers depth _ _ _ _ Hres)
    as (HV & _ & Hpar & Hent).
  assert (s ∈ V') as HsV'.
  { induction Hs as [s Hin Hsome | s pc s' Hs IH Hget Hin Hsome].
    - by apply Hpar.
    - destruct (Hent s IH) as (pc' & Hget' & _ & Hclosed).
      { apply Hfresh. clear -Hs. done. }
      rewrite Hget in Hget'. injection Hget' as <-. by apply Hclosed. }
  apply Hent; [done|]. by apply Hfresh.
Qed.
End ResolveCovers.

(** ** Provided tokens: every binding has an origin *)

Section ResolveOrigins.
Context `{host : TsHost}.
Variable allConfigs : list (Symbol * AnalyzedConfig).

Lemma overlayProviders_elem_of providers tokens k b :
  (k, b) ∈ overlayProviders providers tokens ->
  (b ∈ providers /\ tokenId (token b) = k) \/ (k, b) ∈ tokens.
Proof.
  revert b. induction providers as [|q ps IH] using rev_ind; intros b Hin;
    [by right|].
  rewrite overlayProviders_snoc in Hin.
  apply JsMapFacts.elem_of_set in Hin as [[= -> ->]|Hin].
  - left. split; [|done]. apply elem_of_app. right. left.
  - destruct (IH b Hin) as [[? ?]|?]; [left | by right].
    split; [|done]. apply elem_of_app. by left.
Qed.

Lemma transitiveParent_via config s parentConfig s' :
  s ∈ parentConfigs config ->
  JsMap.get s allConfigs = Some parentConfig ->
  transitiveParent allConfigs parentConfig s' ->
  transitiveParent allConfigs config s'.
Proof.
  intros Hin Hget Hs'.
  induction Hs' as [s' Hin' Hsome | s1 pc s2 Hs1 IH Hget1 Hin2 Hsome].
  - eapply parent_step; [|done..]. apply parent_direct; [done | by eexists].
  - by eapply parent_step.
Qed.

Lemma boundIn_via config s parentConfig k b :
  s ∈ parentConfigs config ->
  JsMap.get s allConfigs = Some parentConfig ->
  boundIn allConfigs parentConfig k b ->
  exists s' parentConfig',
    transitiveParent allConfigs config s'
    /\ JsMap.get s' allConfigs = Some parentConfig'
    /\ b ∈ localProviders parentConfig'.
Proof.
  intros Hin Hget [Hid [Hloc|(s' & pc' & Hs' & Hget' & Hloc)]].
  - exists s, parentConfig. split; [|done].
    apply parent_direct; [done | by eexists].
  - exists s', pc'. split; [|done]. by eapply transitiveParent_via.
Qed.

Lemma resolveParents_origins rec :
  (forall config V tokens V',
      rec config V = Some (tokens, V') ->
      forall k b, (k, b) ∈ tokens -> boundIn allConfigs config k b) ->
  forall parents tokens V tokens' V',
    resolveParents rec allConfigs parents tokens V = Some (tokens', V') ->
    forall k b, (k, b) ∈ tokens' ->
      (k, b) ∈ tokens
      \/ exists s parentConfig,
           s ∈ parents /\ JsMap.get s allConfigs = Some parentConfig
           /\ boundIn allConfigs parentConfig k b.
Proof.
  intros Hrec parents.
  induction parents as [|s rest IH]; intros tokens V tokens' V' Hres k b Hin;
    simpl in Hres.
  - injection Hres as <- <-. by left.
  - assert (forall tokens0 V0,
              resolveParents rec allConfigs rest tokens0 V0 = Some (tokens', V') ->
              (k, b) ∈ tokens0
              \/ exists s0 parentConfig,
                   s0 ∈ s :: rest /\ JsMap.get s0 allConfigs = Some parentConfig
                   /\ boundIn allConfigs parentConfig k b) as Hrest.
    { intros tokens0 V0 Hres0.
      destruct (IH _ _ _ _ Hres0 k b Hin) as [?|(s0 & pc & ? & ? & ?)];
        [by left | right].
      exists s0, pc. split; [by right | done]. }
    destruct (JsMap.get s allConfigs) as [parentConfig|] eqn:Hget;
      [|by eapply Hrest].
    destruct (decide (s ∈ V)); [by eapply Hrest|].
    destruct (rec parentConfig ({[s]} ∪ V)) as [[pt V1]|] eqn:Hcall; [|done].
    destruct (Hrest _ _ Hres) as [Hm|?]; [|by right].
    apply mergeTokens_elem_of in Hm as [Hpt|?]; [|by left].
    right. exists s, parentConfig. split; [left|]. split; [done|].
    by eapply Hrec.
Qed.

Lemma resolveAllProvidedTokens_origins depth config V tokens V' :
  resolveAllProvidedTokens depth config allConfigs V = Some (tokens, V') ->
  forall k b, (k, b) ∈ tokens -> boundIn allConfigs config k b.
Proof.
  revert config V tokens V'.
  induction depth as [|d IH]; intros config V tokens V' Hres k b Hin; [done|].
  simpl in Hres.
  destruct (resolveParents _ _ _ _ _) as [[inherited V1]|] eqn:Hloop; [|done].
  injection Hres as <- <-.
  apply overlayProviders_elem_of in Hin as [[Hloc Hid]|Hin].
  - split; [done | by left].
  - destruct (resolveParents_origins _ IH _ _ _ _ _ Hloop k b Hin)
      as [?%elem_of_nil|(s & pc & Hs & Hget & Hb)]; [done|].
    split; [apply Hb|]. right. by eapply boundIn_via.
Qed.
End ResolveOrigins.

(** ** Missing dependencies *)

(** C1: a provider registered in a partial of another file. The builder of
    [Demo.scenarioInherited] lies in [Demo.appFile]; it extends a partial of
    [Demo.partialFile] that registers [UserService], whose [Logger] is bound
    nowhere. The engine gives the one missing-dependency diagnostic, and
    files it under the builder's file, not under the file of the
    registration whose span it carries. *)
Theorem missing_dependency_filed_under_builder_file :
  exists e,
    validate (host := Demo.demoHost) 5 Demo.scenarioInherited = Some [e]
    /\ isMissingDependency e = true
    /\ start e = getStart0 (host := Demo.demoHost) (node Demo.userServiceInPartial)
    /\ file e = Demo.appFile
    /\ getSourceFile (TsHost := Demo.demoHost) (node Demo.userServiceInPartial)
       = Demo.partialFile
    /\ file e
       ≠ getSourceFile (TsHost := Demo.demoHost) (node Demo.userServiceInPartial).
Proof. eexists. split; [vm_compute; reflexivity|]. by repeat split. Qed.

(** ** Provided tokens *)

(** C4: called with a set [visited] that holds none of the configurations
    [config] extends, directly or not (the call of [validateConfig] passes
    the empty set), and with a call stack deeper than the number of
    configurations, [resolveAllProvidedTokens] returns a mapping. The mapping
    is the own providers of [config] laid over [inherited], the merged
    mappings of its parents, so that a token bound locally is mapped to a
    local provider and any other token is mapped as in [inherited]. Every
    token bound in a configuration that [config] extends, directly or not, is
    in the mapping, mapped to a binding of that token identity made in
    [config] or in a configuration it extends. *)
Theorem resolveAllProvidedTokens_contains_bindings
    depth config allConfigs (visited : gset Symbol) :
  (List.length allConfigs < depth)%nat ->
  (forall s, transitiveParent allConfigs config s -> s ∉ visited) ->
  exists inherited tokens visited',
    resolveAllProvidedTokens depth config allConfigs visited
      = Some (tokens, visited')
    /\ tokens = overlayProviders (localProviders config) inherited
    /\ (forall k b, (k, b) ∈ inherited -> boundIn allConfigs config k b)
    /\ (forall p, p ∈ localProviders config ->
          exists p', p' ∈ localProviders config
            /\ tokenId (token p') = tokenId (token p)
            /\ JsMap.get (tokenId (token p)) tokens = Some p')
    /\ (forall k,
          (forall p, p ∈ localProviders config -> tokenId (token p) ≠ k) ->
          JsMap.get k tokens = JsMap.get k inherited)
    /\ (forall s parentConfig p,
          transitiveParent allConfigs config s ->
          JsMap.get s allConfigs = Some parentConfig ->
          p ∈ localProviders parentConfig ->
          exists b, JsMap.get (tokenId (token p)) tokens = Some b
            /\ boundIn allConfigs config (tokenId (token p)) b).
Proof.
  intros Hdepth Hfresh.
  destruct (resolveAllProvidedTokens_returns allConfigs depth config visited
              Hdepth) as (tokens & visited' & Hres).
  pose proof (resolveAllProvidedTokens_origins allConfigs _ _ _ _ _ Hres)
    as Horigin.
  pose proof (resolveAllProvidedTokens_enters_ancestors allConfigs _ _ _ _ _
                Hres Hfresh) as Henter.
  destruct depth as [|d]; [done|]. simpl in Hres.
  destruct (resolveParents _ _ _ _ _) as [[inherited V1]|] eqn:Hloop; [|done].
  injection Hres as <- <-.
  exists inherited, (overlayProviders (localProviders config) inherited), V1.
  split; [simpl; by rewrite Hloop|]. split; [done|]. split.
  { intros k b Hin.
    destruct (resolveParents_origins allConfigs _
                (resolveAllProvidedTokens_origins allConfigs d)
                _ _ _ _ _ Hloop k b Hin)
      as [?%elem_of_nil|(s & pc & Hs & Hget & Hb)]; [done|].
    split; [apply Hb|]. right. by eapply boundIn_via. }
  split.
  - intros p Hp.
    destruct (overlayProviders_bound_local (localProviders config) inherited p Hp)
      as [b Hb].
    destruct (overlayProviders_get _ _ _ _ Hb) as [[Hin Hid]|[_ Hno]].
    + by exists b.
    + by destruct (Hno p Hp).
  - split; [intros k Hk; by apply overlayProviders_get_other|].
    intros s pc p Hs Hget Hp.
    destruct (Henter s Hs) as (pc' & Hget' & Hbound & _).
    rewrite Hget in Hget'. injection Hget' as <-.
    destruct (Hbound p Hp) as [b Hb]. exists b. split; [done|].
    by apply Horigin, JsMapFacts.get_elem_of.
Qed.

Lemma resolveAllProvidedTokens_contains_bindings_witness :
  exists b,
    (option_map fst
       (resolveAllProvidedTokens 3
          Demo.appExtendingLogging Demo.configsB ∅))
      ≫= JsMap.get "Logger" = Some b.
Proof.
  destruct (resolveAllProvidedTokens_contains_bindings
              3 Demo.appExtendingLogging Demo.configsB ∅)
    as (inherited & tokens & visited' & Hres & _ & _ & _ & _ & Hparents).
  - simpl. lia.
  - intros s _. apply not_elem_of_empty.
  - destruct (Hparents Demo.loggingPartialSymbol Demo.loggingPartial
                Demo.loggerProvider) as (b & Hb & _).
    + apply parent_direct; [left | by eexists].
    + reflexivity.
    + left.
    + exists b. rewrite Hres. exact Hb.
Defined.

(** The hypothesis on [visited] is needed: a parent that [visited] already
    holds is not entered, and a token only it binds is then missing from the
    mapping returned. This is what happens to a shared ancestor the second
    time it is met. *)
Lemma resolveAllProvidedTokens_skips_visited_parent :
  transitiveParent Demo.configsB Demo.appExtendingLogging
    Demo.loggingPartialSymbol
  /\ Demo.loggerProvider ∈ localProviders Demo.loggingPartial
  /\ exists tokens visited',
       resolveAllProvidedTokens 3
         Demo.appExtendingLogging Demo.configsB {[Demo.loggingPartialSymbol]}
         = Some (tokens, visited')
       /\ JsMap.get (tokenId (token Demo.loggerProvider)) tokens = None.
Proof.
  split; [apply parent_direct; [left | by eexists]|].
  split; [left|].
  eexists _, _. split; [reflexivity|]. reflexivity.
Qed.

(** ** Classes to validate *)

Section CollectFacts.
Variable allConfigs : list (Symbol * AnalyzedConfig).

(** A parent without an entry in [allConfigs] is passed over. *)
Lemma collectParents_dangling rec s before after classes log :
  JsMap.get s allConfigs = None ->
  collectParents rec allConfigs (before ++ s :: after) classes log
  = collectParents rec allConfigs (before ++ after) classes log.
Proof.
  intros Hget. revert classes log.
  induction before as [|p before IH]; intros classes log; simpl.
  - by rewrite Hget.
  - destruct (JsMap.get p allConfigs) as [pc|]; [|done].
    by destruct (rec pc) as [[? ?]|].
Qed.

Lemma resolveParents_dangling rec s before after tokens (V : gset Symbol) :
  JsMap.get s allConfigs = None ->
  resolveParents rec allConfigs (before ++ s :: after) tokens V
  = resolveParents rec allConfigs (before ++ after) tokens V.
Proof.
  intros Hget. revert tokens V.
  induction before as [|p before IH]; intros tokens V; simpl.
  - by rewrite Hget.
  - destruct (JsMap.get p allConfigs) as [pc|]; [|done].
    destruct (decide (p ∈ V)); [done|].
    by destruct (rec pc _) as [[? ?]|].
Qed.

(** Once the call on one parent overflows, the loop does. *)
Lemma collectParents_overflow rec s parentConfig parents classes log :
  s ∈ parents ->
  JsMap.get s allConfigs = Some parentConfig ->
  rec parentConfig = None ->
  collectParents rec allConfigs parents classes log = None.
Proof.
  intros Hin Hget Hrec. revert classes log.
  induction parents as [|p rest IH]; intros classes log; simpl.
  - by apply elem_of_nil in Hin.
  - destruct (decide (p = s)) as [->|Hne].
    + by rewrite Hget, Hrec.
    + apply elem_of_cons in Hin as [->|Hin]; [done|].
      destruct (JsMap.get p allConfigs) as [pc|]; [|by apply IH].
      destruct (rec pc) as [[? ?]|]; [by apply IH | done].
Qed.

(** On a configuration that extends itself the collection of classes
    overflows the stack, however deep the stack is. *)
Lemma collectClassesToValidate_cyclic depth config (visitedSet : gset Symbol) s :
  s ∈ parentConfigs config ->
  JsMap.get s allConfigs = Some config ->
  collectClassesToValidate depth config allConfigs visitedSet = None.
Proof.
  intros Hin Hget. induction depth as [|d IH]; [done|]. simpl.
  by eapply collectParents_overflow.
Qed.
End CollectFacts.

(** ** Classes to validate on an acyclic graph *)

(** When a rank decreases along every [extends] edge of [allConfigs], the
    collection of classes returns once the stack is deeper than the rank of
    the configuration it starts from. *)
Lemma collectClassesToValidate_returns_on_dag
    (allConfigs : list (Symbol * AnalyzedConfig))
    (rank : AnalyzedConfig -> nat) (visitedSet : gset Symbol) :
  (forall config s parentConfig,
      s ∈ parentConfigs config ->
      JsMap.get s allConfigs = Some parentConfig ->
      (rank parentConfig < rank config)%nat) ->
  forall depth config,
    (rank config < depth)%nat ->
    is_Some (collectClassesToValidate depth config allConfigs visitedSet).
Proof.
  intros Hrank depth.
  induction depth as [|d IH]; intros config Hd; [lia|]. simpl.
  assert (forall parents classes log,
            (forall s, s ∈ parents -> s ∈ parentConfigs config) ->
            is_Some
              (collectParents
                 (fun parentConfig =>
                    collectClassesToValidate d parentConfig allConfigs
                      visitedSet)
                 allConfigs parents classes log)) as Hloop;
    [|by apply Hloop].
  intros parents.
  induction parents as [|s rest IHp]; intros classes log Hsub; simpl;
    [by eexists|].
  assert (forall s', s' ∈ rest -> s' ∈ parentConfigs config) as Hrest
    by (intros s' ?; apply Hsub; by right).
  destruct (JsMap.get s allConfigs) as [pc|] eqn:Hget; [|by apply IHp].
  destruct (IH pc) as [[parentClasses sublog] ->]; [|by apply IHp].
  assert (rank pc < rank config)%nat; [|lia].
  eapply Hrank; [|done]. apply Hsub. left.
Qed.

(** C5: the diamond of [Demo.diamondConfigs]. The collection of classes
    returns, and it runs on the shared ancestor [Demo.baseSymbol] twice, once
    below each of the two partials that extend it: the set handed to it as
    [visitedSet] is never consulted. *)
Theorem diamond_ancestor_collected_twice :
  exists classes log,
    collectClassesToValidate 5 Demo.diamondBuilder Demo.diamondConfigs ∅
      = Some (classes, log)
    /\ log = [Demo.leftSymbol; Demo.baseSymbol;
              Demo.rightSymbol; Demo.baseSymbol]
    /\ List.length (filter (fun s => s = Demo.baseSymbol) log) = 2%nat.
Proof. eexists _, _. split; [reflexivity|]. by split. Qed.

(** C10: an identity of [parentConfigs] without an entry in the collected
    map changes nothing: the classes to validate, and the diagnostics of the
    configuration, are those of the configuration without that reference. *)
Theorem dangling_parent_is_skipped `{host : TsHost} depth config allConfigs
    allClasses (visitedSet : gset Symbol) s before after :
  parentConfigs config = before ++ s :: after ->
  JsMap.get s allConfigs = None ->
  collectClassesToValidate depth config allConfigs visitedSet
    = collectClassesToValidate depth (withParents config (before ++ after))
        allConfigs visitedSet
  /\ validateConfig depth config allConfigs allClasses
     = validateConfig depth (withParents config (before ++ after))
         allConfigs allClasses.
Proof.
  intros Hparents Hget.
  assert (forall V, collectClassesToValidate depth config allConfigs V
            = collectClassesToValidate depth
                (withParents config (before ++ after)) allConfigs V) as Hcollect.
  { intros V. destruct depth as [|d]; [done|]. simpl. rewrite Hparents.
    by apply collectParents_dangling. }
  split; [done|]. unfold validateConfig. rewrite <- Hcollect.
  assert (resolveAllProvidedTokens depth config allConfigs ∅
          = resolveAllProvidedTokens depth
              (withParents config (before ++ after)) allConfigs ∅) as <-.
  { destruct depth as [|d]; [done|]. simpl. rewrite Hparents.
    by rewrite resolveParents_dangling. }
  done.
Qed.

Lemma dangling_parent_is_skipped_witness :
  validateConfig (host := Demo.demoHost) 3
    (withParents Demo.appConfig [Demo.loggingPartialSymbol])
    [(Demo.appSymbol, Demo.appConfig)]
    [(Demo.userServiceSymbol, Demo.userService)]
  = validateConfig (host := Demo.demoHost) 3
      (withParents (withParents Demo.appConfig [Demo.loggingPartialSymbol]) [])
      [(Demo.appSymbol, Demo.appConfig)]
      [(Demo.userServiceSymbol, Demo.userService)].
Proof.
  apply (dangling_parent_is_skipped (host := Demo.demoHost) 3
           (withParents Demo.appConfig [Demo.loggingPartialSymbol])
           [(Demo.appSymbol, Demo.appConfig)]
           [(Demo.userServiceSymbol, Demo.userService)] ∅
           Demo.loggingPartialSymbol [] []); reflexivity.
Defined.

(** ** The whole pass *)

Section ValidateFacts.
Context `{host : TsHost}.

Lemma validateConfigs_mapM depth entries allConfigs allClasses errors :
  validateConfigs depth entries allConfigs allClasses errors
  = (fun results => errors ++ concat results)
      <$> mapM (fun config => validateConfig depth config allConfigs allClasses)
            (builderConfigs entries).
Proof.
  unfold builderConfigs. revert errors.
  induction entries as [|[s config] rest IH]; intros errors; simpl.
  - by rewrite app_nil_r.
  - destruct (decide (configType config = Builder)) as [Hb|Hb].
    + rewrite filter_cons_True by done. simpl.
      destruct (validateConfig depth config allConfigs allClasses)
        as [configErrors|]; simpl; [|done].
      rewrite IH. destruct (mapM _ _) as [results|]; simpl; [|done].
      by rewrite app_assoc.
    + rewrite filter_cons_False by done. apply IH.
Qed.

Lemma validate_mapM depth program :
  validate depth program
  = (fun results => concat results)
      <$> mapM (fun config =>
                  validateConfig depth config (collectAllConfigs program)
                    (collectAllClasses program))
            (builderConfigs (collectAllConfigs program)).
Proof. unfold validate. by rewrite validateConfigs_mapM. Qed.

Lemma dependencyErrors_kind analyzedClass providedTokens provider config
    dependency :
  Forall dependencyKind
    (dependencyErrors analyzedClass providedTokens provider config dependency).
Proof.
  unfold dependencyErrors. destruct (JsMap.get _ providedTokens) as [rp|].
  - destruct (checkTypeCompatibility _ _ _ _) as [e|] eqn:He; [|done].
    apply checkTypeCompatibility_kind in He as (? & ? & ?).
    apply Forall_singleton. split; [done | by right].
  - apply Forall_singleton. split; [done | by left].
Qed.

Lemma validateClassDependencies_kind analyzedClass providedTokens provider
    config :
  Forall dependencyKind
    (validateClassDependencies analyzedClass providedTokens provider config).
Proof.
  rewrite validateClassDependencies_flat_map.
  induction (dependencies analyzedClass) as [|d ds IH]; simpl; [done|].
  apply Forall_app. split; [apply dependencyErrors_kind | done].
Qed.

Lemma validateClasses_kind classesToValidate allClasses providedTokens config :
  Forall dependencyKind
    (validateClasses classesToValidate allClasses providedTokens config).
Proof.
  unfold validateClasses.
  assert (forall errors, Forall dependencyKind errors ->
    Forall dependencyKind
      (fold_left
         (fun errors '(classSymbol, provider) =>
            match JsMap.get classSymbol allClasses with
            | None => errors
            | Some analyzedClass =>
                errors ++ validateClassDependencies analyzedClass
                            providedTokens provider config
            end) classesToValidate errors)) as Hgen; [|by apply Hgen].
  induction classesToValidate as [|[c p] rest IH]; intros errors Herr; simpl;
    [done|].
  apply IH. destruct (JsMap.get c allClasses); [|done].
  apply Forall_app. split; [done | apply validateClassDependencies_kind].
Qed.

(** The errors of a configuration are those of its classes, class after
    class and, within a class, dependency after dependency. *)
Lemma validateClasses_flat_map classesToValidate allClasses providedTokens
    config :
  validateClasses classesToValidate allClasses providedTokens config
  = flat_map
      (fun '(classSymbol, provider) =>
         match JsMap.get classSymbol allClasses with
         | None => []
         | Some analyzedClass =>
             flat_map
               (dependencyErrors analyzedClass providedTokens provider config)
               (dependencies analyzedClass)
         end)
      classesToValidate.
Proof.
  unfold validateClasses.
  match goal with
  | |- fold_left ?f _ _ = flat_map ?g _ =>
      enough (forall errors,
                fold_left f classesToValidate errors
                = errors ++ flat_map g classesToValidate) as Hgen
        by apply (Hgen [])
  end.
  induction classesToValidate as [|[c p] rest IH]; intros errors; simpl.
  - by rewrite app_nil_r.
  - rewrite IH. destruct (JsMap.get c allClasses) as [analyzedClass|]; [|done].
    by rewrite validateClassDependencies_flat_map, app_assoc.
Qed.

(** X13: the errors of [validateConfig], when it returns: those of the classes to
    validate, class after class in the order of the map and, within a class,
    dependency after dependency; a class that was not analyzed gives
    none. *)
Lemma validateConfig_flat_map depth config allConfigs allClasses errs :
  validateConfig depth config allConfigs allClasses = Some errs ->
  exists providedTokens visited classesToValidate log,
    resolveAllProvidedTokens depth config allConfigs ∅
      = Some (providedTokens, visited)
    /\ collectClassesToValidate depth config allConfigs ∅
       = Some (classesToValidate, log)
    /\ errs
       = flat_map
           (fun '(classSymbol, provider) =>
              match JsMap.get classSymbol allClasses with
              | None => []
              | Some analyzedClass =>
                  flat_map
                    (dependencyErrors analyzedClass providedTokens provider
                       config)
                    (dependencies analyzedClass)
              end)
           classesToValidate.
Proof.
  unfold validateConfig.
  destruct (resolveAllProvidedTokens _ _ _ _) as [[providedTokens V]|]; [|done].
  destruct (collectClassesToValidate _ _ _ _) as [[classes log]|]; [|done].
  intros [= <-]. exists providedTokens, V, classes, log.
  by rewrite validateClasses_flat_map.
Qed.

Lemma validateConfig_kind depth config allConfigs allClasses errs :
  validateConfig depth config allConfigs allClasses = Some errs ->
  Forall dependencyKind errs.
Proof.
  unfold validateConfig.
  destruct (resolveAllProvidedTokens _ _ _ _) as [[providedTokens ?]|]; [|done].
  destruct (collectClassesToValidate _ _ _ _) as [[classes ?]|]; [|done].
  intros [= <-]. apply validateClasses_kind.
Qed.
End ValidateFacts.

(** ** The listeners play no part *)

Section Listeners.
Context `{host : TsHost}.
Variable g : AnalyzedConfig -> list ListenerBinding.

Let F (config : AnalyzedConfig) : AnalyzedConfig :=
  withListeners config (g config).

Lemma get_mapValues {K V W : Type} `{EqDecision K} (f : V -> W) (k : K)
    (m : list (K * V)) :
  JsMap.get k (mapValues f m) = f <$> JsMap.get k m.
Proof.
  induction m as [|[k' v] r IH]; simpl; [done|].
  by destruct (decide (k = k')).
Qed.

Lemma set_mapValues {K V W : Type} `{EqDecision K} (f : V -> W) (k : K)
    (v : V) (m : list (K * V)) :
  JsMap.set k (f v) (mapValues f m) = mapValues f (JsMap.set k v m).
Proof.
  induction m as [|[k' v'] r IH]; simpl; [done|].
  destruct (decide (k = k')); simpl; [done|]. by rewrite IH.
Qed.

Lemma collectAllConfigs_relisten program :
  collectAllConfigs (relisten g program)
  = mapValues F (collectAllConfigs program).
Proof.
  unfold collectAllConfigs.
  match goal with
  | |- fold_left ?f' _ _ = mapValues _ (fold_left ?f _ _) =>
      enough (forall configs : list (Symbol * AnalyzedConfig),
                fold_left f' (relisten g program) (mapValues F configs)
                = mapValues F (fold_left f program configs)) as Hgen
        by apply (Hgen [])
  end.
  induction program as [|sf program IH]; intros configs; simpl; [done|].
  destruct (isDeclarationFile sf); [apply IH|].
  rewrite <- IH. f_equal. clear IH.
  revert configs.
  induction (fileConfigs sf) as [|config rest IHc]; intros configs; simpl;
    [done|].
  destruct (configSymbol config) as [symbol|]; [|apply IHc].
  rewrite <- IHc. f_equal. apply (set_mapValues F).
Qed.

Lemma collectAllClasses_relisten program :
  collectAllClasses (relisten g program) = collectAllClasses program.
Proof.
  unfold collectAllClasses. generalize (@nil (Symbol * AnalyzedClass)).
  induction program as [|sf program IH]; intros classes; simpl; [done|].
  by destruct (isDeclarationFile sf).
Qed.

Lemma resolveParents_relisten rec rec' allConfigs parents tokens
    (V : gset Symbol) :
  (forall parentConfig V0, rec' (F parentConfig) V0 = rec parentConfig V0) ->
  resolveParents rec' (mapValues F allConfigs) parents tokens V
  = resolveParents rec allConfigs parents tokens V.
Proof.
  intros Hrec. revert tokens V.
  induction parents as [|s rest IH]; intros tokens V; simpl; [done|].
  rewrite get_mapValues.
  destruct (JsMap.get s allConfigs) as [pc|]; simpl; [|done].
  destruct (decide (s ∈ V)); [done|].
  rewrite Hrec. by destruct (rec pc _) as [[? ?]|].
Qed.

Lemma resolveAllProvidedTokens_relisten depth config allConfigs
    (V : gset Symbol) :
  resolveAllProvidedTokens depth (F config) (mapValues F allConfigs) V
  = resolveAllProvidedTokens depth config allConfigs V.
Proof.
  revert config V. induction depth as [|d IH]; intros config V; [done|].
  simpl. by rewrite (resolveParents_relisten _ _ _ _ _ _ (fun pc V0 => IH pc V0)).
Qed.

Lemma collectParents_relisten rec rec' allConfigs parents classes log :
  (forall parentConfig, rec' (F parentConfig) = rec parentConfig) ->
  collectParents rec' (mapValues F allConfigs) parents classes log
  = collectParents rec allConfigs parents classes log.
Proof.
  intros Hrec. revert classes log.
  induction parents as [|s rest IH]; intros classes log; simpl; [done|].
  rewrite get_mapValues.
  destruct (JsMap.get s allConfigs) as [pc|]; simpl; [|done].
  rewrite Hrec. by destruct (rec pc) as [[? ?]|].
Qed.

Lemma collectClassesToValidate_relisten depth config allConfigs
    (visitedSet : gset Symbol) :
  collectClassesToValidate depth (F config) (mapValues F allConfigs) visitedSet
  = collectClassesToValidate depth config allConfigs visitedSet.
Proof.
  revert config. induction depth as [|d IH]; intros config; [done|].
  simpl. by rewrite (collectParents_relisten _ _ _ _ _ _ IH).
Qed.

Lemma validateClasses_relisten classesToValidate allClasses providedTokens
    config :
  validateClasses classesToValidate allClasses providedTokens (F config)
  = validateClasses classesToValidate allClasses providedTokens config.
Proof. by rewrite !validateClasses_flat_map. Qed.

Lemma validateConfig_relisten depth config allConfigs allClasses :
  validateConfig depth (F config) (mapValues F allConfigs) allClasses
  = validateConfig depth config allConfigs allClasses.
Proof.
  unfold validateConfig.
  rewrite resolveAllProvidedTokens_relisten, collectClassesToValidate_relisten.
  destruct (resolveAllProvidedTokens _ _ _ _) as [[providedTokens ?]|]; [|done].
  destruct (collectClassesToValidate _ _ _ _) as [[classes ?]|]; [|done].
  by rewrite validateClasses_relisten.
Qed.

(** The listeners of the configurations have no bearing on [validate]. *)
Lemma validate_relisten depth program :
  validate depth (relisten g program) = validate depth program.
Proof.
  unfold validate.
  rewrite collectAllConfigs_relisten, collectAllClasses_relisten.
  generalize (@nil DIValidationError).
  generalize (collectAllConfigs program) at 1 3.
  intros entries.
  induction entries as [|[s config] rest IH]; intros errors; simpl; [done|].
  destruct (decide (configType config = Builder)); [|apply IH].
  rewrite validateConfig_relisten.
  by destruct (validateConfig _ _ _ _).
Qed.
End Listeners.

(** C6, in the form that holds: [validate] does not isolate the configurations from one
    another. It returns the diagnostics of the builder configurations, one
    after the other in the order of the map, when the validation of each of
    them returns; when the validation of one of them fails, the failure is
    that of [validate], which returns no diagnostic at all. *)
Theorem validate_stops_at_first_failure `{host : TsHost} depth program :
  let allConfigs := collectAllConfigs program in
  let allClasses := collectAllClasses program in
  let validateOne :=
    fun config => validateConfig depth config allConfigs allClasses in
  (forall results,
      Forall2 (fun config errs => validateOne config = Some errs)
        (builderConfigs allConfigs) results ->
      validate depth program = Some (concat results))
  /\ (Exists (fun config => validateOne config = None)
        (builderConfigs allConfigs) ->
      validate depth program = None).
Proof.
  intros allConfigs allClasses validateOne. rewrite validate_mapM.
  fold allConfigs allClasses validateOne. split.
  - intros results Hall. apply mapM_Some in Hall. by rewrite Hall.
  - intros Hex. apply mapM_None in Hex. by rewrite Hex.
Qed.

(** C6 as the specification has it fails: in [Demo.scenarioCyclic] the builder of
    scenario A has its diagnostic, the other builder extends itself and its
    validation overflows the stack at any depth, and [validate] then returns
    nothing, the diagnostic of the first builder included. *)
Lemma validate_aborted_by_one_configuration :
  let allConfigs := collectAllConfigs Demo.scenarioCyclic in
  let allClasses := collectAllClasses Demo.scenarioCyclic in
  Demo.appConfig ∈ builderConfigs allConfigs
  /\ Demo.cyclicBuilder ∈ builderConfigs allConfigs
  /\ (exists e,
        validateConfig (host := Demo.demoHost) 5 Demo.appConfig allConfigs
          allClasses = Some [e])
  /\ (forall depth,
        validateConfig (host := Demo.demoHost) depth Demo.cyclicBuilder
          allConfigs allClasses = None)
  /\ (forall depth,
        validate (host := Demo.demoHost) depth Demo.scenarioCyclic = None).
Proof.
  intros allConfigs allClasses.
  assert (forall depth,
            validateConfig (host := Demo.demoHost) depth Demo.cyclicBuilder
              allConfigs allClasses = None) as Hcyclic.
  { intros depth. unfold validateConfig.
    destruct (resolveAllProvidedTokens _ _ _ _) as [[? ?]|]; [|done].
    rewrite (collectClassesToValidate_cyclic allConfigs depth
               Demo.cyclicBuilder ∅ Demo.cyclicSymbol); [done|left|done]. }
  split; [left|]. split; [right; left|].
  split; [by eexists|]. split; [done|].
  intros depth. rewrite validate_mapM.
  assert (mapM (fun config =>
                  validateConfig (host := Demo.demoHost) depth config
                    allConfigs allClasses)
            (builderConfigs allConfigs) = None) as Hm.
  { apply mapM_None, Exists_exists. exists Demo.cyclicBuilder.
    split; [right; left | apply Hcyclic]. }
  fold allConfigs allClasses. by rewrite Hm.
Qed.

(** X18: the engine itself reports no duplicate-listener error. Each error of
    [validate] is a missing-dependency or a type-mismatch one, and the errors
    stay the same whatever listeners the configurations are given: the
    engine does not read them. *)
Theorem validate_reports_no_duplicate_listener `{host : TsHost}
    (g : AnalyzedConfig -> list ListenerBinding) depth program errs :
  validate depth program = Some errs ->
  validate depth (relisten g program) = Some errs
  /\ Forall dependencyKind errs.
Proof.
  intros Hv. split; [by rewrite validate_relisten|].
  rewrite validate_mapM in Hv.
  destruct (mapM _ _) as [results|] eqn:Hm; [|done].
  injection Hv as <-. apply mapM_Some in Hm.
  induction Hm as [|config errs' configs results Hone _ IH]; simpl; [done|].
  apply Forall_app. split; [by eapply validateConfig_kind | done].
Qed.

Lemma validate_reports_no_duplicate_listener_witness :
  exists errs,
    validate (host := Demo.demoHost) 5 Demo.scenarioE = Some errs
    /\ validate (host := Demo.demoHost) 5
         (relisten (fun _ => []) Demo.scenarioE) = Some errs
    /\ Forall dependencyKind errs.
Proof.
  eexists. split; [reflexivity|].
  apply (validate_reports_no_duplicate_listener (host := Demo.demoHost)
           (fun _ => []) 5 Demo.scenarioE).
  reflexivity.
Defined.

(** Scenario E handed to the engine: the builder of [Demo.scenarioE]
    registers the same (event, listener) pair twice in its own listeners, and
    the only error of [validate] is the missing dependency of its class. The
    pair is the business of the check of the listeners, not of the engine. *)
Lemma duplicate_listener_not_reported :
  (exists l l',
     listeners Demo.builderWithDuplicateListener = [l; l'] /\ l = l')
  /\ exists e,
       validate (host := Demo.demoHost) 5 Demo.scenarioE = Some [e]
       /\ isMissingDependency e = true
       /\ List.length (filter (fun e => isDuplicateListener e = true) [e])
          = 0%nat.
Proof.
  split; [by eexists _, _|].
  eexists. split; [reflexivity|]. by split.
Qed.

(** ** Diagnostics of the host *)

(** C8: [convertToDiagnostics] gives one diagnostic per error, in the order
    of the errors; each carries the location and message of its error, the
    category [Error], the code 90001 and the source [di-validator]; the
    related locations of the error, when it has some, are carried over one by
    one, and no related information is set otherwise. The empty list gives
    the empty list. *)
Theorem convertToDiagnostics_maps_in_order (errors : list DIValidationError) :
  List.length (convertToDiagnostics errors) = List.length errors
  /\ Forall2
       (fun e d =>
          diagFile d = file e /\ diagStart d = start e
          /\ diagLength d = errLength e /\ messageText d = message e
          /\ category d = CategoryError
          /\ code d = 90001 /\ source d = "di-validator"
          /\ match relatedInformation e with
             | None | Some [] => diagRelatedInformation d = None
             | Some infos =>
                 exists related,
                   diagRelatedInformation d = Some related
                   /\ Forall2
                        (fun info r =>
                           driFile r = relFile info
                           /\ driStart r = relStart info
                           /\ driLength r = relLength info
                           /\ driMessageText r = relMessage info
                           /\ driCategory r = CategoryMessage
                           /\ driCode r = 90001)
                        infos related
             end)
       errors (convertToDiagnostics errors)
  /\ convertToDiagnostics [] = [].
Proof.
  unfold convertToDiagnostics. split; [by rewrite length_map|].
  split; [|done].
  induction errors as [|e errors IH]; simpl; constructor; [|done].
  repeat split. unfold convertError. simpl.
  destruct (relatedInformation e) as [[|info infos]|]; simpl; [done| |done].
  eexists. split; [done|].
  constructor; [done|].
  induction infos as [|i infos IHi]; simpl; by constructor.
Qed.

(** ** The theorems on a small program *)

Lemma factory_and_value_bindings_are_exempt_witness :
  isTypeAssignableTo (TsHost := Demo.demoHost) Demo.productRepositoryType
    Demo.loggerType = false
  /\ dependencyErrors (host := Demo.demoHost) Demo.userService
       [("Logger", Demo.loggerFactory)] Demo.userServiceProvider
       Demo.appConfig Demo.loggerDependency = [].
Proof.
  split; [reflexivity|].
  apply (factory_and_value_bindings_are_exempt (host := Demo.demoHost)
           Demo.userService [("Logger", Demo.loggerFactory)]
           Demo.userServiceProvider Demo.appConfig Demo.loggerDependency
           Demo.loggerFactory).
  - reflexivity.
  - left. reflexivity.
Defined.

Example dependencyErrors_type_mismatch_on_demo :
  List.length
    (filter (fun e => isTypeMismatch e = true)
       (dependencyErrors (host := Demo.demoHost) Demo.userService
          [("Logger", Demo.wrongLoggerProvider)] Demo.userServiceProvider
          Demo.appConfig Demo.loggerDependency)) = 1%nat.
Proof.
  apply (dependencyErrors_type_mismatch (host := Demo.demoHost)
           Demo.userService [("Logger", Demo.wrongLoggerProvider)]
           Demo.userServiceProvider Demo.appConfig Demo.loggerDependency
           Demo.wrongLoggerProvider Demo.productRepositoryType Demo.loggerType);
    reflexivity.
Qed.

(** Scenario A of the specification: one missing-dependency error, for
    [UserService], [Logger] and parameter 0. *)
Example scenarioA_one_missing_dependency :
  exists e,
    validate (host := Demo.demoHost) 5 Demo.scenarioA = Some [e]
    /\ isMissingDependency e = true
    /\ file e = Demo.appFile
    /\ start e = getStart0 (host := Demo.demoHost) (node Demo.userServiceProvider).
Proof. eexists. split; [reflexivity|]. by repeat split. Qed.

(** Scenario B: with a partial that binds [Logger] to [ConsoleLogger], no
    error is left. *)
Example scenarioB_no_error :
  validateConfig (host := Demo.demoHost) 5 Demo.appExtendingLogging
    Demo.configsB [(Demo.userServiceSymbol, Demo.userService)] = Some [].
Proof. reflexivity. Qed.

(** The diamond again, for the resolution: it returns, and the token of the
    shared ancestor is bound. *)
Example diamond_resolution_binds_logger :
  exists tokens visited',
    resolveAllProvidedTokens 5 Demo.diamondBuilder Demo.diamondConfigs ∅
      = Some (tokens, visited')
    /\ JsMap.get "Logger" tokens = Some Demo.loggerProvider.
Proof. eexists _, _. split; reflexivity. Qed.

(** * More of the engine *)

(** ** Maps built by a loop of [set] *)

Section FoldSet.
Context {K V A : Type} `{EqDecision K}.
Variable key : A -> option K.
Variable val : A -> V.

(** The loop [for (a of l) if (key a) m.set(key a, val a)]. *)
Let step (m : list (K * V)) (a : A) : list (K * V) :=
  match key a with
  | Some k => JsMap.set k (val a) m
  | None => m
  end.

Lemma keys_set (k : K) (v : V) (m : list (K * V)) :
  JsMap.keys (JsMap.set k v m)
  = if decide (k ∈ JsMap.keys m) then JsMap.keys m else JsMap.keys m ++ [k].
Proof.
  unfold JsMap.keys. induction m as [|[k' v'] r IH].
  - rewrite decide_False; [done | apply not_elem_of_nil].
  - cbn [JsMap.set map fst]. destruct (decide (k = k')) as [->|Hne]; simpl.
    + rewrite decide_True; [done | left].
    + rewrite IH. destruct (decide (k ∈ map fst r)) as [Hin|Hnin].
      * rewrite decide_True; [done | by right].
      * rewrite decide_False; [done|].
        by intros [?|?]%elem_of_cons.
Qed.

Lemma NoDup_keys_set (k : K) (v : V) (m : list (K * V)) :
  NoDup (JsMap.keys m) -> NoDup (JsMap.keys (JsMap.set k v m)).
Proof.
  intros Hm. rewrite keys_set. destruct (decide (k ∈ JsMap.keys m)); [done|].
  apply NoDup_app. split; [done|]. split; [|apply NoDup_singleton].
  by intros x Hx ->%list_elem_of_singleton.
Qed.

Lemma fold_set_NoDup (l : list A) (m : list (K * V)) :
  NoDup (JsMap.keys m) -> NoDup (JsMap.keys (fold_left step l m)).
Proof.
  revert m. induction l as [|a l IH]; intros m Hm; simpl; [done|].
  apply IH. unfold step. destruct (key a); [by apply NoDup_keys_set | done].
Qed.

(** What the loop leaves under a key: the value of the last element of the
    list with that key, or what was there when no element has it. *)
Lemma fold_set_get (l : list A) (m : list (K * V)) (k : K) :
  JsMap.get k (fold_left step l m)
  = match last (filter (fun a => key a = Some k) l) with
    | Some a => Some (val a)
    | None => JsMap.get k m
    end.
Proof.
  revert m. induction l as [|a l IH]; intros m; simpl; [done|].
  rewrite IH. unfold step.
  destruct (decide (key a = Some k)) as [Hk|Hk].
  - rewrite filter_cons_True by done. rewrite last_cons.
    destruct (last (filter _ l)); [done|].
    rewrite Hk. apply JsMapFacts.get_set_eq.
  - rewrite filter_cons_False by done.
    destruct (last (filter _ l)); [done|].
    destruct (key a) as [k'|]; [|done].
    apply JsMapFacts.get_set_ne. congruence.
Qed.

Lemma fold_set_elem_of (l : list A) (m : list (K * V)) (k : K) (v : V) :
  (k, v) ∈ fold_left step l m ->
  (k, v) ∈ m \/ exists a, a ∈ l /\ key a = Some k /\ val a = v.
Proof.
  revert m. induction l as [|a l IH]; intros m Hin; simpl in Hin; [by left|].
  destruct (IH _ Hin) as [Hm|(a' & ? & ? & ?)].
  - unfold step in Hm. destruct (key a) as [k'|] eqn:Hk; [|by left].
    apply JsMapFacts.elem_of_set in Hm as [[= -> ->]|?]; [|by left].
    right. exists a. split; [left | done].
  - right. exists a'. split; [by right | done].
Qed.
End FoldSet.

(** ** The two maps of a pass *)

Lemma collectAllConfigs_fold (program : Program) :
  collectAllConfigs program
  = fold_left
      (fun configs config =>
         match configSymbol config with
         | Some symbol => JsMap.set symbol config configs
         | None => configs
         end)
      (programConfigs program) [].
Proof.
  unfold collectAllConfigs, programConfigs.
  generalize (@nil (Symbol * AnalyzedConfig)).
  induction program as [|sf program IH]; intros configs; [done|].
  destruct (isDeclarationFile sf) eqn:Hd.
  - rewrite filter_cons_False by congruence.
    simpl. rewrite Hd. apply IH.
  - rewrite filter_cons_True by done.
    simpl. rewrite Hd, fold_left_app. apply IH.
Qed.

Lemma collectAllClasses_fold (program : Program) :
  collectAllClasses program
  = fold_left
      (fun classes cls =>
         match Some (classSymbol cls) with
         | Some symbol => JsMap.set symbol cls classes
         | None => classes
         end)
      (programClasses program) [].
Proof.
  unfold collectAllClasses, programClasses.
  generalize (@nil (Symbol * AnalyzedClass)).
  induction program as [|sf program IH]; intros classes; [done|].
  destruct (isDeclarationFile sf) eqn:Hd.
  - rewrite filter_cons_False by congruence.
    simpl. rewrite Hd. apply IH.
  - rewrite filter_cons_True by done.
    simpl. rewrite Hd, fold_left_app. apply IH.
Qed.

(** X1: the configuration found under a symbol is the last one the analyzers
    report with that symbol, files in program order, declaration files and
    configurations without a symbol left out; no such configuration, no
    entry. *)
Theorem collectAllConfigs_get (program : Program) (s : Symbol) :
  JsMap.get s (collectAllConfigs program)
  = last (filter (fun config => configSymbol config = Some s)
            (programConfigs program)).
Proof.
  rewrite collectAllConfigs_fold.
  rewrite (fold_set_get configSymbol (fun config => config)).
  by destruct (last _).
Qed.

(** X2: the map of configurations has one entry per symbol, and each entry is a
    configuration of a file that is not a declaration file, filed under its
    own symbol. *)
Theorem collectAllConfigs_entries (program : Program) :
  NoDup (JsMap.keys (collectAllConfigs program))
  /\ forall s config,
       (s, config) ∈ collectAllConfigs program ->
       configSymbol config = Some s /\ config ∈ programConfigs program.
Proof.
  rewrite collectAllConfigs_fold. split.
  - apply (fold_set_NoDup configSymbol (fun config => config)). constructor.
  - intros s config Hin.
    apply (fold_set_elem_of configSymbol (fun config => config)) in Hin
      as [?%elem_of_nil|(c & Hc & Hs & <-)]; done.
Qed.

(** X3: the class found under a symbol is the last one the analyzers report for
    that symbol, and the map of classes has one entry per symbol. *)
Theorem collectAllClasses_get (program : Program) (s : Symbol) :
  JsMap.get s (collectAllClasses program)
  = last (filter (fun cls => classSymbol cls = s) (programClasses program))
  /\ NoDup (JsMap.keys (collectAllClasses program)).
Proof.
  rewrite collectAllClasses_fold. split.
  - rewrite (fold_set_get (fun cls => Some (classSymbol cls)) (fun cls => cls)).
    rewrite (list_filter_iff _ (fun cls => classSymbol cls = s)).
    + by destruct (last _).
    + intros cls. split; [by intros [= ->] | by intros ->].
  - apply (fold_set_NoDup (fun cls => Some (classSymbol cls)) (fun cls => cls)).
    constructor.
Qed.

(** ** Classes to validate: what the collection returns *)

Section CollectReturns.
Variable allConfigs : list (Symbol * AnalyzedConfig).

Lemma addLocalClasses_get providers classes c :
  JsMap.get c (addLocalClasses providers classes)
  = match last (filter (fun p => providerClass p = Some c) providers) with
    | Some p => Some p
    | None => JsMap.get c classes
    end.
Proof. apply (fold_set_get providerClass (fun p => p)). Qed.

Lemma addLocalClasses_NoDup providers classes :
  NoDup (JsMap.keys classes) ->
  NoDup (JsMap.keys (addLocalClasses providers classes)).
Proof. apply (fold_set_NoDup providerClass (fun p => p)). Qed.

Lemma addLocalClasses_elem_of providers c p :
  (c, p) ∈ addLocalClasses providers [] ->
  p ∈ providers /\ providerClass p = Some c.
Proof.
  intros Hin.
  apply (fold_set_elem_of providerClass (fun p => p)) in Hin
    as [?%elem_of_nil|(p' & ? & ? & <-)]; done.
Qed.

(** Merging the classes of a parent never replaces a class already there. *)
Lemma mergeParentClasses_get parentClasses classes c :
  JsMap.get c (mergeParentClasses parentClasses classes)
  = match JsMap.get c classes with
    | Some p => Some p
    | None => JsMap.get c parentClasses
    end.
Proof.
  unfold mergeParentClasses. revert classes.
  induction parentClasses as [|[c1 p1] rest IH]; intros classes; simpl.
  - by destruct (JsMap.get c classes).
  - rewrite IH. unfold JsMap.has.
    destruct (decide (c = c1)) as [->|Hne].
    + destruct (JsMap.get c1 classes) as [p|] eqn:Hc; [by rewrite Hc|].
      by rewrite JsMapFacts.get_set_eq.
    + destruct (JsMap.get c1 classes); [done|].
      by rewrite JsMapFacts.get_set_ne.
Qed.

Lemma mergeParentClasses_NoDup parentClasses classes :
  NoDup (JsMap.keys classes) ->
  NoDup (JsMap.keys (mergeParentClasses parentClasses classes)).
Proof.
  unfold mergeParentClasses. revert classes.
  induction parentClasses as [|[c1 p1] rest IH]; intros classes Hnd; simpl;
    [done|].
  apply IH. destruct (JsMap.has c1 classes); [done|].
  by apply NoDup_keys_set.
Qed.

Lemma mergeParentClasses_elem_of parentClasses classes c p :
  (c, p) ∈ mergeParentClasses parentClasses classes ->
  (c, p) ∈ classes \/ (c, p) ∈ parentClasses.
Proof.
  unfold mergeParentClasses. revert classes.
  induction parentClasses as [|[c1 p1] rest IH]; intros classes Hin;
    simpl in Hin; [by left|].
  destruct (IH _ Hin) as [Hc|?]; [|right; by right].
  destruct (JsMap.has c1 classes); [by left|].
  apply JsMapFacts.elem_of_set in Hc as [[= -> ->]|?]; [right; left | by left].
Qed.

Lemma collectParents_app rec before after classes log :
  collectParents rec allConfigs (before ++ after) classes log
  = match collectParents rec allConfigs before classes log with
    | Some (classes', log') =>
        collectParents rec allConfigs after classes' log'
    | None => None
    end.
Proof.
  revert classes log.
  induction before as [|s before IH]; intros classes log; simpl; [done|].
  destruct (JsMap.get s allConfigs) as [pc|]; [|done].
  by destruct (rec pc) as [[? ?]|].
Qed.

(** What the loop over the parents leaves under a class: what was there, or
    else what the first parent that has the class gives. *)
Lemma collectParents_keeps rec parents classes log classes' log' c p :
  collectParents rec allConfigs parents classes log = Some (classes', log') ->
  JsMap.get c classes = Some p ->
  JsMap.get c classes' = Some p.
Proof.
  revert classes log.
  induction parents as [|s rest IH]; intros classes log Hres Hget;
    simpl in Hres.
  - by injection Hres as <- <-.
  - destruct (JsMap.get s allConfigs) as [pc|]; [|by eapply IH].
    destruct (rec pc) as [[pcs sublog]|]; [|done].
    eapply IH; [done|]. by rewrite mergeParentClasses_get, Hget.
Qed.

Lemma collectParents_skips rec parents classes log classes' log' c :
  collectParents rec allConfigs parents classes log = Some (classes', log') ->
  (forall s parentConfig parentClasses sublog,
      s ∈ parents -> JsMap.get s allConfigs = Some parentConfig ->
      rec parentConfig = Some (parentClasses, sublog) ->
      JsMap.get c parentClasses = None) ->
  JsMap.get c classes' = JsMap.get c classes.
Proof.
  revert classes log.
  induction parents as [|s rest IH]; intros classes log Hres Hno;
    simpl in Hres.
  - by injection Hres as <- <-.
  - assert (forall s0 pc0 pcs0 l0,
              s0 ∈ rest -> JsMap.get s0 allConfigs = Some pc0 ->
              rec pc0 = Some (pcs0, l0) -> JsMap.get c pcs0 = None) as Hrest.
    { intros s0 pc0 pcs0 l0 ?. apply Hno. by right. }
    destruct (JsMap.get s allConfigs) as [pc|] eqn:Hs; [|by eapply IH].
    destruct (rec pc) as [[pcs sublog]|] eqn:Hrec; [|done].
    rewrite (IH _ _ Hres Hrest), mergeParentClasses_get.
    rewrite (Hno s pc pcs sublog); [by destruct (JsMap.get c classes)|left|done..].
Qed.

Lemma collectParents_NoDup rec parents classes log classes' log' :
  (forall parentConfig parentClasses sublog,
      rec parentConfig = Some (parentClasses, sublog) ->
      NoDup (JsMap.keys parentClasses)) ->
  collectParents rec allConfigs parents classes log = Some (classes', log') ->
  NoDup (JsMap.keys classes) -> NoDup (JsMap.keys classes').
Proof.
  intros Hrec. revert classes log.
  induction parents as [|s rest IH]; intros classes log Hres Hnd;
    simpl in Hres.
  - by injection Hres as <- <-.
  - destruct (JsMap.get s allConfigs) as [pc|]; [|by eapply IH].
    destruct (rec pc) as [[pcs sublog]|]; [|done].
    eapply IH; [done|]. by apply mergeParentClasses_NoDup.
Qed.

Lemma collectParents_elem_of rec parents classes log classes' log' c p :
  collectParents rec allConfigs parents classes log = Some (classes', log') ->
  (c, p) ∈ classes' ->
  (c, p) ∈ classes
  \/ exists s parentConfig parentClasses sublog,
       s ∈ parents /\ JsMap.get s allConfigs = Some parentConfig
       /\ rec parentConfig = Some (parentClasses, sublog)
       /\ (c, p) ∈ parentClasses.
Proof.
  revert classes log.
  induction parents as [|s rest IH]; intros classes log Hres Hin;
    simpl in Hres.
  - injection Hres as <- <-. by left.
  - assert (forall classes0 log0,
              collectParents rec allConfigs rest classes0 log0
                = Some (classes', log') ->
              (c, p) ∈ classes0
              \/ exists s0 parentConfig parentClasses sublog,
                   s0 ∈ s :: rest /\ JsMap.get s0 allConfigs = Some parentConfig
                   /\ rec parentConfig = Some (parentClasses, sublog)
                   /\ (c, p) ∈ parentClasses) as Hrest.
    { intros classes0 log0 Hres0.
      destruct (IH _ _ Hres0 Hin) as [?|(s0 & pc & pcs & l & ? & ? & ? & ?)];
        [by left | right].
      exists s0, pc, pcs, l. split; [by right | done]. }
    destruct (JsMap.get s allConfigs) as [pc|] eqn:Hs; [|by eapply Hrest].
    destruct (rec pc) as [[pcs sublog]|] eqn:Hrec; [|done].
    destruct (Hrest _ _ Hres) as [Hm|?]; [|by right].
    apply mergeParentClasses_elem_of in Hm as [?|?]; [by left|].
    right. exists s, pc, pcs, sublog. split; [left | done].
Qed.

Lemma collectParents_all_parents rec parents classes log classes' log' s
    parentConfig :
  collectParents rec allConfigs parents classes log = Some (classes', log') ->
  s ∈ parents -> JsMap.get s allConfigs = Some parentConfig ->
  exists parentClasses sublog,
    rec parentConfig = Some (parentClasses, sublog)
    /\ forall c, is_Some (JsMap.get c parentClasses) ->
                 is_Some (JsMap.get c classes').
Proof.
  revert classes log.
  induction parents as [|s0 rest IH]; intros classes log Hres Hin Hget;
    simpl in Hres; [by apply elem_of_nil in Hin|].
  destruct (decide (s0 = s)) as [->|Hne].
  - rewrite Hget in Hres.
    destruct (rec parentConfig) as [[pcs sublog]|] eqn:Hrec; [|done].
    exists pcs, sublog. split; [done|]. intros c [p Hp].
    destruct (JsMap.get c (mergeParentClasses pcs classes)) as [p'|] eqn:Hm.
    + exists p'. by eapply collectParents_keeps.
    + rewrite mergeParentClasses_get, Hp in Hm.
      by destruct (JsMap.get c classes).
  - apply elem_of_cons in Hin as [->|Hin]; [done|].
    destruct (JsMap.get s0 allConfigs) as [pc0|]; [|by eapply IH].
    destruct (rec pc0) as [[pcs0 l0]|]; [|done]. by eapply IH.
Qed.
End CollectReturns.

Section CollectTheorems.
Variable allConfigs : list (Symbol * AnalyzedConfig).

(** X4: the set handed over as [visitedSet] has no bearing on the result. *)
Theorem collectClassesToValidate_ignores_visitedSet depth config
    (visitedSet visitedSet' : gset Symbol) :
  collectClassesToValidate depth config allConfigs visitedSet
  = collectClassesToValidate depth config allConfigs visitedSet'.
Proof.
  revert config. induction depth as [|d IH]; intros config; [done|]. simpl.
  generalize (addLocalClasses (localProviders config) []) (@nil Symbol).
  induction (parentConfigs config) as [|s rest IHp]; intros classes log; simpl;
    [done|].
  destruct (JsMap.get s allConfigs) as [pc|]; [|done].
  rewrite IH. by destruct (collectClassesToValidate d pc _ _) as [[? ?]|].
Qed.

(** Where a class to validate comes from. *)
Lemma collectClassesToValidate_origin depth config
    (visitedSet : gset Symbol) classes log c p :
  collectClassesToValidate depth config allConfigs visitedSet
    = Some (classes, log) ->
  (c, p) ∈ classes ->
  providerClass p = Some c
  /\ (p ∈ localProviders config
      \/ exists s parentConfig,
           transitiveParent allConfigs config s
           /\ JsMap.get s allConfigs = Some parentConfig
           /\ p ∈ localProviders parentConfig).
Proof.
  revert config classes log c p.
  induction depth as [|d IH]; intros config classes log c p Hres Hin; [done|].
  simpl in Hres.
  eapply collectParents_elem_of in Hin
    as [Hloc|(s & pc & pcs & l & Hs & Hget & Hpc & Hp)]; [| |done].
  - apply addLocalClasses_elem_of in Hloc as [? ?]. split; [done | by left].
  - destruct (IH _ _ _ _ _ Hpc Hp)
      as [Hcls [Hloc|(s' & pc' & Hs' & Hget' & Hloc)]].
    + split; [done|]. right. exists s, pc. split; [|done].
      apply parent_direct; [done | by eexists].
    + split; [done|]. right. exists s', pc'. split; [|done].
      by eapply transitiveParent_via.
Qed.

(** X5: the classes to validate carry each class once, and each under the
    provider class of a provider registered in the configuration itself or
    in a configuration it extends, directly or not. *)
Theorem collectClassesToValidate_entries depth config
    (visitedSet : gset Symbol) classes log :
  collectClassesToValidate depth config allConfigs visitedSet
    = Some (classes, log) ->
  NoDup (JsMap.keys classes)
  /\ forall c p,
       (c, p) ∈ classes ->
       providerClass p = Some c
       /\ (p ∈ localProviders config
           \/ exists s parentConfig,
                transitiveParent allConfigs config s
                /\ JsMap.get s allConfigs = Some parentConfig
                /\ p ∈ localProviders parentConfig).
Proof.
  intros Hres. split; [|intros c p; by eapply collectClassesToValidate_origin].
  revert config classes log Hres.
  induction depth as [|d IH]; intros config classes log Hres; [done|].
  simpl in Hres.
  eapply collectParents_NoDup; [|done|].
  - intros pc pcs l Hpc. apply (IH _ _ _ Hpc).
  - apply addLocalClasses_NoDup. constructor.
Qed.

(** X6: when the collection returns, a class registered by the configuration
    itself is mapped to the configuration's own registration, the last one
    if there are several: no parent replaces it. *)
Theorem collectClassesToValidate_local_wins depth config
    (visitedSet : gset Symbol) classes log c p :
  collectClassesToValidate depth config allConfigs visitedSet
    = Some (classes, log) ->
  last (filter (fun p => providerClass p = Some c) (localProviders config))
    = Some p ->
  JsMap.get c classes = Some p.
Proof.
  destruct depth as [|d]; [done|]. simpl. intros Hres Hlast.
  eapply collectParents_keeps; [done|].
  by rewrite addLocalClasses_get, Hlast.
Qed.

Lemma transitiveParent_front config s' :
  transitiveParent allConfigs config s' ->
  (s' ∈ parentConfigs config /\ is_Some (JsMap.get s' allConfigs))
  \/ exists s parentConfig,
       s ∈ parentConfigs config /\ JsMap.get s allConfigs = Some parentConfig
       /\ transitiveParent allConfigs parentConfig s'.
Proof.
  induction 1 as [s' Hin Hsome | s pc s' Hs IH Hget Hin Hsome].
  - by left.
  - right. destruct IH as [[Hdirect _]|(s1 & pc1 & Hs1 & Hget1 & Hreach)].
    + exists s, pc. split; [done|]. split; [done|]. by apply parent_direct.
    + exists s1, pc1. split; [done|]. split; [done|]. by eapply parent_step.
Qed.

(** X8: when the collection returns, every provider class registered in a
    configuration that [config] extends, directly or not, is among the
    classes to validate. *)
Theorem collectClassesToValidate_reaches_ancestors depth config
    (visitedSet : gset Symbol) classes log s parentConfig p c :
  collectClassesToValidate depth config allConfigs visitedSet
    = Some (classes, log) ->
  transitiveParent allConfigs config s ->
  JsMap.get s allConfigs = Some parentConfig ->
  p ∈ localProviders parentConfig ->
  providerClass p = Some c ->
  is_Some (JsMap.get c classes).
Proof.
  revert config classes log.
  induction depth as [|d IH]; intros config classes log Hres Hs Hget Hp Hc;
    [done|].
  simpl in Hres.
  apply transitiveParent_front in Hs
    as [[Hdirect _]|(s1 & pc1 & Hs1 & Hget1 & Hreach)].
  - destruct (collectParents_all_parents _ _ _ _ _ _ _ _ _ Hres Hdirect Hget)
      as (pcs & l & Hpc & Hsub).
    apply Hsub. destruct d as [|d']; [done|]. simpl in Hpc.
    assert (is_Some (JsMap.get c
                       (addLocalClasses (localProviders parentConfig) [])))
      as [p' Hp'].
    { rewrite addLocalClasses_get.
      destruct (last (filter _ (localProviders parentConfig))) eqn:Hlast;
        [by eexists|].
      apply last_None in Hlast.
      assert (p ∈ filter (fun p => providerClass p = Some c)
                    (localProviders parentConfig)) as Hin
        by by apply list_elem_of_filter.
      rewrite Hlast in Hin. by apply elem_of_nil in Hin. }
    exists p'. by eapply collectParents_keeps.
  - destruct (collectParents_all_parents _ _ _ _ _ _ _ _ _ Hres Hs1 Hget1)
      as (pcs & l & Hpc & Hsub).
    apply Hsub. by eapply IH.
Qed.

(** A deeper stack gives the same result. *)
Lemma collectClassesToValidate_deeper depth depth' config
    (visitedSet : gset Symbol) result :
  collectClassesToValidate depth config allConfigs visitedSet = Some result ->
  (depth <= depth')%nat ->
  collectClassesToValidate depth' config allConfigs visitedSet = Some result.
Proof.
  revert depth' config result.
  induction depth as [|d IH]; intros depth' config result Hres Hle; [done|].
  destruct depth' as [|d']; [lia|]. simpl in *.
  revert Hres.
  generalize (addLocalClasses (localProviders config) []) (@nil Symbol).
  induction (parentConfigs config) as [|s rest IHp]; intros classes log Hres;
    simpl in *; [done|].
  destruct (JsMap.get s allConfigs) as [pc|]; [|by apply IHp].
  destruct (collectClassesToValidate d pc _ _) as [[pcs l]|] eqn:Hpc; [|done].
  rewrite (IH d' pc _ Hpc) by lia. by apply IHp.
Qed.

(** X10: on a set of configurations each of which extends a member of the set,
    the collection overflows the stack, however deep the stack is. *)
Theorem collectClassesToValidate_overflows_on_cycle
    (onCycle : AnalyzedConfig -> Prop) (visitedSet : gset Symbol) :
  (forall config, onCycle config ->
     exists s parentConfig,
       s ∈ parentConfigs config
       /\ JsMap.get s allConfigs = Some parentConfig
       /\ onCycle parentConfig) ->
  forall depth config,
    onCycle config ->
    collectClassesToValidate depth config allConfigs visitedSet = None.
Proof.
  intros Hcycle depth.
  induction depth as [|d IH]; intros config Hon; [done|]. simpl.
  destruct (Hcycle config Hon) as (s & pc & Hs & Hget & Hpc).
  eapply collectParents_overflow; [done..|]. by apply IH.
Qed.
End CollectTheorems.

(** X7: when the collection returns, the first parent counts: a class that
    the configuration does not register itself, and that no parent listed
    before [s] brings, is mapped to the registration of [s]. *)
Theorem collectClassesToValidate_first_parent_wins
    (allConfigs : list (Symbol * AnalyzedConfig)) depth config
    (visitedSet : gset Symbol) classes log before s after parentConfig c p :
  collectClassesToValidate depth config allConfigs visitedSet
    = Some (classes, log) ->
  parentConfigs config = before ++ s :: after ->
  (forall p, p ∈ localProviders config -> providerClass p ≠ Some c) ->
  (forall s0 config0,
      s0 ∈ before -> JsMap.get s0 allConfigs = Some config0 ->
      registersNowhere allConfigs config0 c) ->
  JsMap.get s allConfigs = Some parentConfig ->
  last (filter (fun p => providerClass p = Some c)
          (localProviders parentConfig)) = Some p ->
  JsMap.get c classes = Some p.
Proof.
  destruct depth as [|d]; [done|]. simpl.
  intros Hres Hparents Hlocal Hbefore Hget Hlast.
  rewrite Hparents, collectParents_app in Hres.
  destruct (collectParents _ allConfigs before _ _) as [[classes1 log1]|]
    eqn:Hb; [|done].
  assert (JsMap.get c classes1 = None) as Hc1.
  { erewrite collectParents_skips; [| exact Hb |].
    - rewrite addLocalClasses_get.
      destruct (last (filter _ (localProviders config))) as [p0|] eqn:Hl;
        [|done].
      apply last_Some_elem_of, list_elem_of_filter in Hl as [Hcls Hin].
      by destruct (Hlocal p0 Hin).
    - intros s0 pc0 pcs0 l0 Hs0 Hget0 Hrec0.
      destruct (JsMap.get c pcs0) as [p0|] eqn:Hp0; [|done].
      apply JsMapFacts.get_elem_of in Hp0.
      destruct (collectClassesToValidate_origin allConfigs _ _ _ _ _ _ _
                  Hrec0 Hp0) as [Hcls Hwhere].
      destruct (Hbefore s0 pc0 Hs0 Hget0) as [Hno Hno'].
      destruct Hwhere as [Hin|(s1 & pc1 & Hs1 & Hget1 & Hin)].
      + by destruct (Hno p0 Hin).
      + by destruct (Hno' s1 pc1 p0 Hs1 Hget1 Hin). }
  simpl in Hres. rewrite Hget in Hres.
  destruct (collectClassesToValidate d parentConfig allConfigs visitedSet)
    as [[pcs l]|] eqn:Hpc; [|done].
  eapply collectParents_keeps; [done|].
  rewrite mergeParentClasses_get, Hc1.
  destruct d as [|d']; [done|]. simpl in Hpc.
  eapply collectParents_keeps; [done|].
  by rewrite addLocalClasses_get, Hlast.
Qed.

(** ** The errors of a pass *)

Section ErrorsOfAPass.
Context `{host : TsHost}.

(** What holds of the errors the two constructors build holds of every
    error of [validate]. *)
Lemma validate_Forall (P : DIValidationError -> Prop) depth program errs :
  (forall analyzedClass dependency provider config,
      P (createMissingDependencyError analyzedClass dependency provider
           config)) ->
  (forall dependency registeredProvider analyzedClass config e,
      checkTypeCompatibility dependency registeredProvider analyzedClass
        config = Some e -> P e) ->
  validate depth program = Some errs ->
  Forall P errs.
Proof.
  intros Hmissing Hmismatch. rewrite validate_mapM. intros Hv.
  destruct (mapM _ _) as [results|] eqn:Hm; [|done].
  injection Hv as <-. apply mapM_Some in Hm.
  induction Hm as [|config errs' configs results Hone _ IH]; simpl; [done|].
  apply Forall_app. split; [|done]. clear IH.
  unfold validateConfig in Hone.
  destruct (resolveAllProvidedTokens _ _ _ _) as [[providedTokens V]|]; [|done].
  destruct (collectClassesToValidate _ _ _ _) as [[classes log]|]; [|done].
  injection Hone as <-. rewrite validateClasses_flat_map.
  induction classes as [|[c p] classes IH]; simpl; [done|].
  apply Forall_app. split; [|done].
  destruct (JsMap.get c _) as [analyzedClass|]; [|done].
  induction (dependencies analyzedClass) as [|d ds IHd]; simpl; [done|].
  apply Forall_app. split; [|done]. unfold dependencyErrors.
  destruct (JsMap.get _ providedTokens) as [rp|].
  - destruct (checkTypeCompatibility d rp analyzedClass config) as [e|] eqn:He;
      [|done].
    apply Forall_singleton. by eapply Hmismatch.
  - apply Forall_singleton. apply Hmissing.
Qed.

(** X16: every diagnostic a pass ends in, once converted for the host, opens
    with the tag of the plugin and carries exactly one related location, of
    category [Message]. *)
Theorem validate_diagnostics_have_one_related_location depth program errs :
  validate depth program = Some errs ->
  Forall
    (fun d =>
       startsWith "[WireDI] " (messageText d) = true
       /\ exists r,
            diagRelatedInformation d = Some [r]
            /\ driCategory r = CategoryMessage)
    (convertToDiagnostics errs).
Proof.
  intros Hv. unfold convertToDiagnostics. apply Forall_map.
  eapply validate_Forall; [| |exact Hv]; simpl.
  - intros. split; [done | by eexists].
  - intros dependency rp analyzedClass config e.
    unfold checkTypeCompatibility.
    destruct (expectedType dependency), (providerType rp); try done.
    case_bool_decide; [done|]. destruct (negb _); [|done].
    intros [= <-]. simpl. split; [done | by eexists].
Qed.

(** X11: a program without a builder configuration gives no diagnostic, whatever
    its partial configurations are and however shallow the stack. *)
Theorem validate_without_builder depth program :
  (forall config, config ∈ programConfigs program ->
                  configType config = Partial) ->
  validate depth program = Some [].
Proof.
  intros Hpartial. rewrite validate_mapM.
  assert (builderConfigs (collectAllConfigs program) = []) as ->; [|done].
  unfold builderConfigs.
  destruct (filter _ _) as [|config rest] eqn:Hf; [done|].
  assert (config ∈ filter (fun config => configType config = Builder)
                     (map snd (collectAllConfigs program))) as Hin
    by (rewrite Hf; left).
  apply list_elem_of_filter in Hin as [Hb Hin].
  apply list_elem_of_fmap in Hin as ([s c] & -> & Hin).
  rewrite collectAllConfigs_fold in Hin.
  apply (fold_set_elem_of configSymbol (fun config => config)) in Hin
    as [?%elem_of_nil|(c' & Hc' & _ & <-)]; [done|].
  simpl in Hb. by rewrite (Hpartial _ Hc') in Hb.
Qed.

(** X12: a configuration whose providers, its own and the inherited ones, are
    all without a provider class (factories and values) has no class to
    validate and gets no diagnostic. *)
Theorem validateConfig_without_provider_class depth config allConfigs
    allClasses errs :
  (forall p, p ∈ localProviders config -> providerClass p = None) ->
  (forall s parentConfig p,
      transitiveParent allConfigs config s ->
      JsMap.get s allConfigs = Some parentConfig ->
      p ∈ localProviders parentConfig -> providerClass p = None) ->
  validateConfig depth config allConfigs allClasses = Some errs ->
  errs = [].
Proof.
  intros Hlocal Hinherited Hv.
  unfold validateConfig in Hv.
  destruct (resolveAllProvidedTokens _ _ _ _) as [[providedTokens V]|]; [|done].
  destruct (collectClassesToValidate _ _ _ _) as [[classes log]|] eqn:Hcollect;
    [|done].
  injection Hv as <-.
  destruct classes as [|[c p] classes]; [done|].
  destruct (collectClassesToValidate_origin allConfigs _ _ _ _ _ c p Hcollect)
    as [Hcls [Hin|(s & pc & Hs & Hget & Hin)]]; [left|..].
  - by rewrite (Hlocal p Hin) in Hcls.
  - by rewrite (Hinherited s pc p Hs Hget Hin) in Hcls.
Qed.
End ErrorsOfAPass.

(** ** The errors of a class *)

Section ErrorsOfAClass.
Context `{host : TsHost}.

(** X14: when a dependency goes through without a diagnostic: its token is
    bound, and the binding is not checked (the dependency has no expected
    type, the binding has no recorded type, or it is a factory or a value)
    or its type is assignable to the expected one. *)
Theorem dependencyErrors_nil_iff analyzedClass providedTokens provider config
    dependency :
  dependencyErrors analyzedClass providedTokens provider config dependency = []
  <-> exists registeredProvider,
        JsMap.get (tokenId (depToken dependency)) providedTokens
          = Some registeredProvider
        /\ (expectedType dependency = None
            \/ providerType registeredProvider = None
            \/ registrationType registeredProvider = RegFactory
            \/ registrationType registeredProvider = RegValue
            \/ exists expectedTy providerTy,
                 expectedType dependency = Some expectedTy
                 /\ providerType registeredProvider = Some providerTy
                 /\ isTypeAssignableTo providerTy expectedTy = true).
Proof.
  unfold dependencyErrors, checkTypeCompatibility.
  destruct (JsMap.get _ providedTokens) as [rp|]; [|split].
  - split.
    + intros Hnil. exists rp. split; [done|].
      destruct (expectedType dependency) as [et|]; [|by left].
      destruct (providerType rp) as [pty|]; [|right; by left].
      case_bool_decide as Hk; [destruct Hk; by auto|].
      destruct (isTypeAssignableTo pty et) eqn:Ha; [|done].
      do 4 right. by exists et, pty.
    + intros (rp' & [= <-] & Hwhy).
      destruct Hwhy as [->|[->|[Hk|[Hk|(et & pty & -> & -> & Ha)]]]].
      * done.
      * by destruct (expectedType dependency).
      * destruct (expectedType dependency), (providerType rp); try done.
        rewrite bool_decide_eq_true_2; [done | by left].
      * destruct (expectedType dependency), (providerType rp); try done.
        rewrite bool_decide_eq_true_2; [done | by right].
      * case_bool_decide; [done|]. by rewrite Ha.
  - done.
  - by intros (rp & ? & _).
Qed.

(** X15: a class gets at most one error per dependency, and exactly one
    missing-dependency error per dependency whose token is not bound. *)
Theorem validateClassDependencies_counts analyzedClass providedTokens provider
    config :
  let errs :=
    validateClassDependencies analyzedClass providedTokens provider config in
  (List.length errs <= List.length (dependencies analyzedClass))%nat
  /\ List.length (filter (fun e => isMissingDependency e = true) errs)
     = List.length
         (filter
            (fun d => JsMap.get (tokenId (depToken d)) providedTokens = None)
            (dependencies analyzedClass)).
Proof.
  intros errs. subst errs. rewrite validateClassDependencies_flat_map.
  induction (dependencies analyzedClass) as [|d ds [IHle IHeq]]; [done|].
  cbn [flat_map]. rewrite filter_app, !length_app, IHeq.
  unfold dependencyErrors in *.
  destruct (JsMap.get (tokenId (depToken d)) providedTokens) as [rp|] eqn:Hget.
  - rewrite filter_cons_False by congruence.
    destruct (checkTypeCompatibility d rp analyzedClass config) as [e|] eqn:He.
    + apply checkTypeCompatibility_kind in He as (_ & Hno & _).
      rewrite filter_cons_False by congruence. simpl. split; [lia | done].
    + simpl. split; [lia | done].
  - rewrite filter_cons_True by done.
    rewrite filter_cons_True by done. simpl. split; [lia | done].
Qed.
End ErrorsOfAClass.

(** ** Diagnostics of the host: nothing is lost *)

Lemma convertRelated_inj (i j : RelatedInformation) :
  convertRelated i = convertRelated j -> i = j.
Proof. destruct i, j. unfold convertRelated. simpl. by intros [= -> -> -> ->]. Qed.

(** X17: two lists of errors with the same diagnostics are the same list, as long
    as no error has an empty list of related locations (which is converted
    like an absent one). *)
Theorem convertToDiagnostics_inj (errors errors' : list DIValidationError) :
  Forall (fun e => relatedInformation e ≠ Some []) errors ->
  Forall (fun e => relatedInformation e ≠ Some []) errors' ->
  convertToDiagnostics errors = convertToDiagnostics errors' ->
  errors = errors'.
Proof.
  unfold convertToDiagnostics. intros Hne. revert errors'.
  induction Hne as [|e errors He _ IH]; intros [|e' errors'] Hne' Heq;
    simpl in Heq; try done.
  injection Heq as Hfile Hstart Hlen Hmsg Hrel Hrest.
  apply Forall_cons in Hne' as [He' Hne'].
  f_equal; [|by apply IH].
  destruct e as [m f s l r], e' as [m' f' s' l' r']. simpl in *. subst.
  f_equal.
  destruct r as [[|i infos]|], r' as [[|i' infos']|]; try done.
  apply (inj Some) in Hrel. f_equal.
  change (map convertRelated (i :: infos) = map convertRelated (i' :: infos'))
    in Hrel.
  revert Hrel. generalize (i :: infos) (i' :: infos'). clear.
  intros l. induction l as [|x l IH]; intros [|x' l'] Heq; try done.
  apply (inj2 cons) in Heq as [Hx Heq]. apply convertRelated_inj in Hx as ->.
  f_equal. by apply IH.
Qed.

(** ** Classes to validate on an acyclic graph, from the map alone *)

(** X9: when a rank decreases along every [extends] edge between configurations
    of [allConfigs], the collection of classes returns for every
    configuration once the stack is deeper than the ranks of its parents
    allow. *)
Theorem collectClassesToValidate_returns_on_acyclic_map
    (allConfigs : list (Symbol * AnalyzedConfig))
    (rank : AnalyzedConfig -> nat) (visitedSet : gset Symbol) depth config :
  (0 < depth)%nat ->
  (forall s config0 s' parentConfig,
      JsMap.get s allConfigs = Some config0 ->
      s' ∈ parentConfigs config0 ->
      JsMap.get s' allConfigs = Some parentConfig ->
      (rank parentConfig < rank config0)%nat) ->
  (forall s parentConfig,
      s ∈ parentConfigs config ->
      JsMap.get s allConfigs = Some parentConfig ->
      (rank parentConfig + 1 < depth)%nat) ->
  is_Some (collectClassesToValidate depth config allConfigs visitedSet).
Proof.
  intros Hdepth Hrank Hroot.
  assert (forall d parents classes log,
            (forall s parentConfig,
                s ∈ parents -> JsMap.get s allConfigs = Some parentConfig ->
                is_Some (collectClassesToValidate d parentConfig allConfigs
                           visitedSet)) ->
            is_Some
              (collectParents
                 (fun parentConfig =>
                    collectClassesToValidate d parentConfig allConfigs
                      visitedSet)
                 allConfigs parents classes log))
    as Hloop.
  { intros d parents.
    induction parents as [|s rest IH]; intros classes log Hall; simpl;
      [by eexists|].
    assert (forall s0 pc0, s0 ∈ rest -> JsMap.get s0 allConfigs = Some pc0 ->
              is_Some (collectClassesToValidate d pc0 allConfigs visitedSet))
      as Hrest by (intros s0 pc0 ?; apply Hall; by right).
    destruct (JsMap.get s allConfigs) as [pc|] eqn:Hget; [|by apply IH].
    destruct (Hall s pc) as [[pcs l] ->]; [left | done | by apply IH]. }
  assert (forall d s config0,
            JsMap.get s allConfigs = Some config0 ->
            (rank config0 < d)%nat ->
            is_Some (collectClassesToValidate d config0 allConfigs visitedSet))
    as Hinner.
  { intros d. induction d as [|d IH]; intros s config0 Hget Hd; [lia|].
    simpl. apply Hloop. intros s' pc Hin Hget'.
    apply (IH s' pc Hget'). pose proof (Hrank s config0 s' pc Hget Hin Hget').
    lia. }
  destruct depth as [|d]; [lia|]. simpl. apply Hloop.
  intros s pc Hin Hget. apply (Hinner d s pc Hget).
  pose proof (Hroot s pc Hin Hget). lia.
Qed.

(** ** The theorems above on the small program *)

Lemma collectClassesToValidate_entries_witness :
  exists classes log,
    collectClassesToValidate 5 Demo.diamondBuilder Demo.diamondConfigs ∅
      = Some (classes, log)
    /\ NoDup (JsMap.keys classes).
Proof.
  eexists _, _. split; [reflexivity|].
  eapply (collectClassesToValidate_entries Demo.diamondConfigs 5
            Demo.diamondBuilder ∅).
  reflexivity.
Defined.

Lemma collectClassesToValidate_local_wins_witness :
  exists classes log,
    collectClassesToValidate 5 Demo.diamondBuilder Demo.diamondConfigs ∅
      = Some (classes, log)
    /\ JsMap.get Demo.userServiceSymbol classes = Some Demo.userServiceProvider.
Proof.
  eexists _, _. split; [reflexivity|].
  eapply (collectClassesToValidate_local_wins Demo.diamondConfigs 5
            Demo.diamondBuilder ∅); reflexivity.
Defined.

Lemma transitiveParent_without_parents allConfigs config s :
  parentConfigs config = [] -> ~ transitiveParent allConfigs config s.
Proof.
  intros Hnone Hs.
  induction Hs as [s Hin _ | s pc s' _ IH _ _ _]; [|done].
  rewrite Hnone in Hin. by apply elem_of_nil in Hin.
Qed.

Lemma collectClassesToValidate_first_parent_wins_witness :
  exists classes log,
    collectClassesToValidate 5 Demo.appExtendingBoth Demo.configsBoth ∅
      = Some (classes, log)
    /\ JsMap.get Demo.consoleLoggerSymbol classes = Some Demo.loggerProvider.
Proof.
  eexists _, _. split; [reflexivity|].
  eapply (collectClassesToValidate_first_parent_wins Demo.configsBoth 5
            Demo.appExtendingBoth ∅ _ _ [Demo.servicesPartialSymbol]
            Demo.loggingPartialSymbol [] Demo.loggingPartial).
  - reflexivity.
  - reflexivity.
  - intros p Hin. by apply elem_of_nil in Hin.
  - intros s0 config0 Hs0 Hget.
    apply list_elem_of_singleton in Hs0 as ->.
    injection Hget as <-. split.
    + intros p Hp. apply list_elem_of_singleton in Hp as ->. discriminate.
    + intros s pc p Hs. by apply transitiveParent_without_parents in Hs.
  - reflexivity.
  - reflexivity.
Defined.

Lemma collectClassesToValidate_reaches_ancestors_witness :
  exists classes log,
    collectClassesToValidate 5 Demo.diamondBuilder Demo.diamondConfigs ∅
      = Some (classes, log)
    /\ is_Some (JsMap.get Demo.consoleLoggerSymbol classes).
Proof.
  eexists _, _. split; [reflexivity|].
  eapply (collectClassesToValidate_reaches_ancestors Demo.diamondConfigs 5
            Demo.diamondBuilder ∅ _ _ Demo.baseSymbol Demo.basePartial
            Demo.loggerProvider).
  - reflexivity.
  - eapply (parent_step _ _ Demo.leftSymbol Demo.leftPartial).
    + apply parent_direct; [left | by eexists].
    + reflexivity.
    + left.
    + by eexists.
  - reflexivity.
  - left.
  - reflexivity.
Defined.

Lemma collectClassesToValidate_returns_on_acyclic_map_witness :
  is_Some
    (collectClassesToValidate 5 Demo.diamondBuilder Demo.diamondConfigs ∅).
Proof.
  apply (collectClassesToValidate_returns_on_acyclic_map Demo.diamondConfigs
           Demo.diamondRank ∅ 5 Demo.diamondBuilder).
  - lia.
  - intros s config0 s' pc Hget Hin Hget'.
    assert (config0 = Demo.diamondBuilder \/ config0 = Demo.leftPartial
            \/ config0 = Demo.rightPartial \/ config0 = Demo.basePartial)
      as Hconfig0.
    { simpl in Hget. repeat case_decide; simplify_eq; auto. }
    destruct Hconfig0 as [->|[->|[->| ->]]]; simpl in Hin;
      repeat (apply elem_of_cons in Hin as [->|Hin]);
      try (by apply elem_of_nil in Hin);
      injection Hget' as <-; vm_compute; lia.
  - intros s pc Hin Hget. simpl in Hin.
    repeat (apply elem_of_cons in Hin as [->|Hin]);
      try (by apply elem_of_nil in Hin);
      injection Hget as <-; vm_compute; lia.
Defined.

Lemma collectClassesToValidate_overflows_on_cycle_witness :
  collectClassesToValidate 7 Demo.cyclicBuilder
    (collectAllConfigs Demo.scenarioCyclic) ∅ = None.
Proof.
  apply (collectClassesToValidate_overflows_on_cycle
           (collectAllConfigs Demo.scenarioCyclic)
           (fun config => config = Demo.cyclicBuilder) ∅); [|done].
  intros config ->. exists Demo.cyclicSymbol, Demo.cyclicBuilder.
  split; [left|]. split; reflexivity.
Defined.

Lemma validate_diagnostics_have_one_related_location_witness :
  exists d,
    option_map convertToDiagnostics
      (validate (host := Demo.demoHost) 5 Demo.scenarioA) = Some [d]
    /\ exists r, diagRelatedInformation d = Some [r].
Proof.
  eexists. split; [reflexivity|].
  pose proof (validate_diagnostics_have_one_related_location
                (host := Demo.demoHost) 5 Demo.scenarioA _ eq_refl) as Hall.
  apply Forall_cons in Hall as [(_ & r & Hr & _) _]. by exists r.
Defined.

Lemma validate_without_builder_witness :
  validate (host := Demo.demoHost) 0 Demo.partialsOnly = Some [].
Proof.
  apply (validate_without_builder (host := Demo.demoHost) 0 Demo.partialsOnly).
  intros config Hin.
  change (config ∈ [Demo.servicesPartial; Demo.loggingPartial]) in Hin.
  repeat (apply elem_of_cons in Hin as [->|Hin]); try done.
  by apply elem_of_nil in Hin.
Defined.

Lemma validateConfig_without_provider_class_witness :
  exists errs,
    validateConfig (host := Demo.demoHost) 3 Demo.factoryOnlyBuilder
      [(Demo.appSymbol, Demo.factoryOnlyBuilder)]
      [(Demo.userServiceSymbol, Demo.userService)] = Some errs
    /\ errs = [].
Proof.
  eexists. split; [reflexivity|].
  apply (validateConfig_without_provider_class (host := Demo.demoHost) 3
           Demo.factoryOnlyBuilder [(Demo.appSymbol, Demo.factoryOnlyBuilder)]
           [(Demo.userServiceSymbol, Demo.userService)]).
  - intros p Hp. by apply list_elem_of_singleton in Hp as ->.
  - intros s pc p Hs. by apply transitiveParent_without_parents in Hs.
  - reflexivity.
Defined.

Lemma validateConfig_flat_map_witness :
  exists providedTokens classesToValidate,
    option_map fst
      (resolveAllProvidedTokens 5 Demo.appExtendingLogging Demo.configsB ∅)
      = Some providedTokens
    /\ option_map fst
         (collectClassesToValidate 5 Demo.appExtendingLogging Demo.configsB ∅)
       = Some classesToValidate
    /\ List.length classesToValidate = 2%nat.
Proof.
  destruct (validateConfig_flat_map (host := Demo.demoHost) 5
              Demo.appExtendingLogging Demo.configsB
              [(Demo.userServiceSymbol, Demo.userService)] [] eq_refl)
    as (providedTokens & V & classes & log & Hr & Hc & _).
  exists providedTokens, classes. rewrite Hr, Hc. split; [done|].
  split; [done|]. by injection Hc as <- _.
Defined.

Lemma convertToDiagnostics_inj_witness :
  convertToDiagnostics
    (validateClassDependencies (host := Demo.demoHost) Demo.userService []
       Demo.userServiceProvider Demo.appConfig)
  ≠ convertToDiagnostics
      (validateClassDependencies (host := Demo.demoHost) Demo.userService []
         Demo.userServiceInPartial Demo.appConfig).
Proof.
  intros Heq.
  apply (convertToDiagnostics_inj
           (validateClassDependencies (host := Demo.demoHost) Demo.userService
              [] Demo.userServiceProvider Demo.appConfig)
           (validateClassDependencies (host := Demo.demoHost) Demo.userService
              [] Demo.userServiceInPartial Demo.appConfig)) in Heq.
  - discriminate Heq.
  - repeat constructor. discriminate.
  - repeat constructor. discriminate.
Defined.

(** ** Type mismatches in the errors of a pass *)

Section MismatchInAPass.
Context `{host : TsHost}.

Lemma validateClasses_app classes1 classes2 allClasses providedTokens config :
  validateClasses (classes1 ++ classes2) allClasses providedTokens config
  = validateClasses classes1 allClasses providedTokens config
    ++ validateClasses classes2 allClasses providedTokens config.
Proof. by rewrite !validateClasses_flat_map, flat_map_app. Qed.

Lemma get_of_elem_of_NoDup {K V : Type} `{EqDecision K} (m : list (K * V))
    (k : K) (v : V) :
  NoDup (JsMap.keys m) -> (k, v) ∈ m -> JsMap.get k m = Some v.
Proof.
  unfold JsMap.keys. induction m as [|[k' v'] r IH]; simpl; intros Hnd Hin.
  - by apply elem_of_nil in Hin.
  - apply NoDup_cons in Hnd as [Hk' Hnd].
    apply elem_of_cons in Hin as [[= -> ->]|Hin].
    + by rewrite decide_True.
    + rewrite decide_False; [by apply IH|].
      intros ->. apply Hk', list_elem_of_fmap. by exists (k', v).
Qed.

(** With a rank that decreases along the [extends] edges, the collection
    returns on a configuration of the map once the stack is deeper than its
    rank. *)
Lemma collectClassesToValidate_returns_ranked
    (allConfigs : list (Symbol * AnalyzedConfig))
    (rank : AnalyzedConfig -> nat) (visitedSet : gset Symbol) :
  (forall s config s' parentConfig,
      JsMap.get s allConfigs = Some config ->
      s' ∈ parentConfigs config ->
      JsMap.get s' allConfigs = Some parentConfig ->
      (rank parentConfig < rank config)%nat) ->
  forall depth s config,
    JsMap.get s allConfigs = Some config ->
    (rank config < depth)%nat ->
    is_Some (collectClassesToValidate depth config allConfigs visitedSet).
Proof.
  intros Hrank depth.
  induction depth as [|d IH]; intros s config Hget Hd; [lia|]. simpl.
  assert (forall parents classes log,
            (forall s', s' ∈ parents -> s' ∈ parentConfigs config) ->
            is_Some
              (collectParents
                 (fun parentConfig =>
                    collectClassesToValidate d parentConfig allConfigs
                      visitedSet)
                 allConfigs parents classes log)) as Hloop;
    [|by apply Hloop].
  intros parents.
  induction parents as [|s' rest IHp]; intros classes log Hsub; simpl;
    [by eexists|].
  assert (forall s0, s0 ∈ rest -> s0 ∈ parentConfigs config) as Hrest
    by (intros s0 ?; apply Hsub; by right).
  destruct (JsMap.get s' allConfigs) as [pc|] eqn:Hget'; [|by apply IHp].
  destruct (IH s' pc Hget') as [[parentClasses sublog] ->]; [|by apply IHp].
  assert (rank pc < rank config)%nat; [|lia].
  eapply Hrank; [done| |done]. apply Hsub. left.
Qed.

(** On a program whose [extends] graph is acyclic, [validate] returns once
    the stack is deep enough. *)
Lemma validate_returns_on_acyclic_map depth program
    (rank : AnalyzedConfig -> nat) :
  (forall s config s' parentConfig,
      JsMap.get s (collectAllConfigs program) = Some config ->
      s' ∈ parentConfigs config ->
      JsMap.get s' (collectAllConfigs program) = Some parentConfig ->
      (rank parentConfig < rank config)%nat) ->
  (forall s config,
      JsMap.get s (collectAllConfigs program) = Some config ->
      (rank config < depth)%nat) ->
  (List.length (collectAllConfigs program) < depth)%nat ->
  is_Some (validate depth program).
Proof.
  intros Hrank Hdepth Hsize. rewrite validate_mapM.
  set (allConfigs := collectAllConfigs program) in *.
  set (allClasses := collectAllClasses program).
  destruct (mapM _ (builderConfigs allConfigs)) as [results|] eqn:Hm;
    [by eexists|].
  apply mapM_None, Exists_exists in Hm as (config & Hin & Hnone).
  apply list_elem_of_filter in Hin as [_ Hin].
  apply list_elem_of_fmap in Hin as ([s c] & -> & Hin). simpl in Hnone.
  assert (JsMap.get s allConfigs = Some c) as Hget.
  { apply get_of_elem_of_NoDup; [|done]. subst allConfigs.
    rewrite collectAllConfigs_fold.
    apply (fold_set_NoDup configSymbol (fun config => config)). constructor. }
  unfold validateConfig in Hnone.
  destruct (resolveAllProvidedTokens_returns allConfigs depth c ∅ Hsize)
    as (tokens & V & Hr).
  destruct (collectClassesToValidate_returns_ranked allConfigs rank ∅ Hrank
              depth s c Hget (Hdepth s c Hget)) as [[classes log] Hc].
  by rewrite Hr, Hc in Hnone.
Qed.

(** C2: take a builder configuration of the program, a class it validates
    and a dependency of that class whose token resolves to a provider-class
    binding with a recorded output type. [validate] returns whenever the
    [extends] graph is acyclic and the stack deep enough. Whenever it
    returns, its errors are those of the configurations, classes and
    dependencies met before, then those of the turn of that dependency, then
    those of what follows. The turn holds exactly one type-mismatch error if
    and only if the provider's output type is not assignable to the expected
    type, and is empty when it is assignable. The error sits on the node of
    the registration, in the file of that node; it names both type strings,
    the class, the token and the parameter ordinal, and its related location
    is the parameter. *)
Theorem type_mismatch_iff_not_assignable depth program
    configsBefore config configsAfter providedTokens visited
    classesBefore classSymbol provider classesAfter log
    analyzedClass depsBefore dependency depsAfter
    registeredProvider providerTy expectedTy :
  let allConfigs := collectAllConfigs program in
  let allClasses := collectAllClasses program in
  builderConfigs allConfigs = configsBefore ++ config :: configsAfter ->
  resolveAllProvidedTokens depth config allConfigs ∅
    = Some (providedTokens, visited) ->
  collectClassesToValidate depth config allConfigs ∅
    = Some (classesBefore ++ (classSymbol, provider) :: classesAfter, log) ->
  JsMap.get classSymbol allClasses = Some analyzedClass ->
  dependencies analyzedClass = depsBefore ++ dependency :: depsAfter ->
  JsMap.get (tokenId (depToken dependency)) providedTokens
    = Some registeredProvider ->
  registrationType registeredProvider = RegProviderClass ->
  providerType registeredProvider = Some providerTy ->
  expectedType dependency = Some expectedTy ->
  (forall rank : AnalyzedConfig -> nat,
      (forall s config0 s' parentConfig,
          JsMap.get s allConfigs = Some config0 ->
          s' ∈ parentConfigs config0 ->
          JsMap.get s' allConfigs = Some parentConfig ->
          (rank parentConfig < rank config0)%nat) ->
      (forall s config0,
          JsMap.get s allConfigs = Some config0 -> (rank config0 < depth)%nat) ->
      (List.length allConfigs < depth)%nat ->
      is_Some (validate depth program))
  /\ forall errs,
       validate depth program = Some errs ->
       exists resultsBefore resultsAfter turn,
         Forall2
           (fun config0 result =>
              validateConfig depth config0 allConfigs allClasses = Some result)
           configsBefore resultsBefore
         /\ Forall2
              (fun config0 result =>
                 validateConfig depth config0 allConfigs allClasses
                   = Some result)
              configsAfter resultsAfter
         /\ errs
            = (concat resultsBefore
               ++ validateClasses classesBefore allClasses providedTokens config
               ++ flat_map
                    (dependencyErrors analyzedClass providedTokens provider
                       config)
                    depsBefore)
              ++ turn
              ++ (flat_map
                    (dependencyErrors analyzedClass providedTokens provider
                       config)
                    depsAfter
                  ++ validateClasses classesAfter allClasses providedTokens
                       config
                  ++ concat resultsAfter)
         /\ (List.length (filter (fun e => isTypeMismatch e = true) turn)
               = 1%nat
             <-> isTypeAssignableTo providerTy expectedTy = false)
         /\ if isTypeAssignableTo providerTy expectedTy then turn = []
            else
              exists e,
                turn = [e]
                /\ isTypeMismatch e = true
                /\ file e = getSourceFile (node registeredProvider)
                /\ start e = getStart0 (node registeredProvider)
                /\ errLength e = getWidth0 (node registeredProvider)
                /\ names (message e) (typeToString expectedTy)
                /\ names (message e) (typeToString providerTy)
                /\ names (message e) (className analyzedClass)
                /\ names (message e) (displayName (depToken dependency))
                /\ names (message e) (pretty (parameterIndex dependency))
                /\ exists info,
                     relatedInformation e = Some [info]
                     /\ relFile info = getSourceFile (parameterNode dependency)
                     /\ relStart info = getStart0 (parameterNode dependency)
                     /\ relLength info = getWidth0 (parameterNode dependency).
Proof.
  intros allConfigs allClasses Hbuilders Hresolve Hcollect Hclass Hdeps Hget
    Hkind Hpty Hety.
  split; [intros rank; apply validate_returns_on_acyclic_map|].
  intros errs Hv. rewrite validate_mapM in Hv.
  fold allConfigs allClasses in Hv. rewrite Hbuilders in Hv.
  destruct (mapM _ _) as [results|] eqn:Hm; [|done].
  injection Hv as <-. apply mapM_Some in Hm.
  apply Forall2_app_inv_l in Hm as (resultsBefore & rest & HB & Hrest & ->).
  apply Forall2_cons_inv_l in Hrest as (result & resultsAfter & Hone & HA & ->).
  exists resultsBefore, resultsAfter,
    (dependencyErrors analyzedClass providedTokens provider config dependency).
  split; [done|]. split; [done|]. split.
  - unfold validateConfig in Hone. rewrite Hresolve, Hcollect in Hone.
    injection Hone as <-.
    rewrite concat_app. simpl.
    rewrite validateClasses_app.
    change ((classSymbol, provider) :: classesAfter)
      with ([(classSymbol, provider)] ++ classesAfter).
    rewrite validateClasses_app.
    assert (validateClasses [(classSymbol, provider)] allClasses providedTokens
              config
            = flat_map
                (dependencyErrors analyzedClass providedTokens provider config)
                depsBefore
              ++ dependencyErrors analyzedClass providedTokens provider config
                   dependency
              ++ flat_map
                   (dependencyErrors analyzedClass providedTokens provider
                      config)
                   depsAfter) as ->.
    { rewrite validateClasses_flat_map. simpl. rewrite Hclass, app_nil_r.
      rewrite Hdeps, flat_map_app. done. }
    by rewrite <- !app_assoc.
  - by apply (dependencyErrors_type_mismatch analyzedClass providedTokens
                provider config dependency registeredProvider providerTy
                expectedTy).
Qed.
End MismatchInAPass.

Lemma type_mismatch_iff_not_assignable_witness :
  exists turn,
    List.length (filter (fun e => isTypeMismatch e = true) turn) = 1%nat
    /\ exists before after,
         validate (host := Demo.demoHost) 5 Demo.scenarioC
         = Some (before ++ turn ++ after).
Proof.
  destruct (type_mismatch_iff_not_assignable (host := Demo.demoHost) 5
              Demo.scenarioC [] Demo.appWithWrongLogger []
              [("UserService", Demo.userServiceProvider);
               ("Logger", Demo.wrongLoggerProvider)] ∅
              [] Demo.userServiceSymbol Demo.userServiceProvider
              [(Demo.productRepositorySymbol, Demo.wrongLoggerProvider)] []
              Demo.userService [] Demo.loggerDependency []
              Demo.wrongLoggerProvider Demo.productRepositoryType
              Demo.loggerType) as [Hreturns Hturn]; try reflexivity.
  destruct (Hreturns (fun _ => 0%nat)) as [errs Hv].
  - intros s config0 s' pc Hget Hin.
    assert (config0 = Demo.appWithWrongLogger) as ->.
    { simpl in Hget. repeat case_decide; simplify_eq; done. }
    by apply elem_of_nil in Hin.
  - intros. lia.
  - simpl. lia.
  - destruct (Hturn errs Hv) as (rb & ra & turn & _ & _ & -> & Hiff & _).
    exists turn. split; [by apply Hiff|]. by eexists _, _.
Defined.

(** C2 as the specification has it fails next to a configuration whose
    validation fails: in [Demo.scenarioCNextToCycle] the first builder binds
    [Logger] to a provider class whose type is not assignable to the type its
    class expects, and its own validation gives the type-mismatch error; the
    other builder extends itself, and [validate] returns nothing at any
    depth. *)
Lemma type_mismatch_lost_next_to_failing_configuration :
  let allConfigs := collectAllConfigs Demo.scenarioCNextToCycle in
  let allClasses := collectAllClasses Demo.scenarioCNextToCycle in
  Demo.appWithWrongLogger ∈ builderConfigs allConfigs
  /\ (exists providedTokens visited classes log e,
        resolveAllProvidedTokens 5 Demo.appWithWrongLogger allConfigs ∅
          = Some (providedTokens, visited)
        /\ collectClassesToValidate 5 Demo.appWithWrongLogger allConfigs ∅
           = Some ((Demo.userServiceSymbol, Demo.userServiceProvider)
                   :: classes, log)
        /\ JsMap.get Demo.userServiceSymbol allClasses = Some Demo.userService
        /\ dependencies Demo.userService = [Demo.loggerDependency]
        /\ JsMap.get (tokenId (depToken Demo.loggerDependency)) providedTokens
           = Some Demo.wrongLoggerProvider
        /\ registrationType Demo.wrongLoggerProvider = RegProviderClass
        /\ providerType Demo.wrongLoggerProvider
           = Some Demo.productRepositoryType
        /\ expectedType Demo.loggerDependency = Some Demo.loggerType
        /\ isTypeAssignableTo (TsHost := Demo.demoHost)
             Demo.productRepositoryType Demo.loggerType = false
        /\ validateConfig (host := Demo.demoHost) 5 Demo.appWithWrongLogger
             allConfigs allClasses = Some [e]
        /\ isTypeMismatch e = true)
  /\ forall depth,
       validate (host := Demo.demoHost) depth Demo.scenarioCNextToCycle = None.
Proof.
  intros allConfigs allClasses.
  split; [left|]. split.
  { eexists _, _, _, _, _. repeat split; reflexivity. }
  intros depth. rewrite validate_mapM.
  assert (mapM (fun config =>
                  validateConfig (host := Demo.demoHost) depth config
                    allConfigs allClasses)
            (builderConfigs allConfigs) = None) as Hm.
  { apply mapM_None, Exists_exists. exists Demo.cyclicBuilder.
    split; [right; left|]. unfold validateConfig.
    destruct (resolveAllProvidedTokens _ _ _ _) as [[? ?]|]; [|done].
    rewrite (collectClassesToValidate_cyclic allConfigs depth
               Demo.cyclicBuilder ∅ Demo.cyclicSymbol); [done|left|done]. }
  fold allConfigs allClasses. by rewrite Hm.
Qed.

(** ** The check of the listeners, modelled from the specification *)


(** Where an error of the check points: at an entry of the list that
    repeats an entry already seen or an earlier entry of the list. *)
Lemma checkOwnListeners_elem_of seen index bindings e :
  e ∈ checkOwnListeners seen index bindings ->
  listenerMessage e = "[WireDI] Duplicate listener in the same configuration"
  /\ exists i,
       faultyIndex e = (index + i)%nat
       /\ bindings !! i = Some (faultyBinding e)
       /\ (faultyBinding e ∈ seen
           \/ exists j, (j < i)%nat /\ bindings !! j = Some (faultyBinding e)).
Proof.
  revert seen index.
  induction bindings as [|binding rest IH]; intros seen index Hin.
  - by apply elem_of_nil in Hin.
  - cbn [checkOwnListeners] in Hin. apply elem_of_app in Hin as [Hhead|Hrest].
    + destruct (decide (binding ∈ seen)) as [Hseen|];
        [|by apply elem_of_nil in Hhead].
      apply list_elem_of_singleton in Hhead as ->. simpl.
      split; [done|]. exists 0%nat. split; [lia|]. split; [done | by left].
    + destruct (IH _ _ Hrest) as (Hmsg & i & Hidx & Hi & Hwhere).
      split; [done|]. exists (S i). split; [lia|]. split; [done|].
      destruct Hwhere as [[Heq|Hseen]%elem_of_cons|(j & Hj & Hlook)].
      * right. exists 0%nat. split; [lia|]. simpl. by rewrite Heq.
      * by left.
      * right. exists (S j). split; [lia | done].
Qed.



(** Listeners that are all different pass the check. *)
Lemma distinct_listeners_pass (config : AnalyzedConfig) :
  NoDup (listeners config) -> duplicateListenerErrors config = [].
Proof.
  unfold duplicateListenerErrors. intros Hnd.
  destruct (checkOwnListeners [] 0 (listeners config)) as [|e rest] eqn:Hc;
    [done|].
  assert (e ∈ checkOwnListeners [] 0 (listeners config)) as Hin
    by (rewrite Hc; left).
  apply checkOwnListeners_elem_of in Hin
    as (_ & i & _ & Hi & [?%elem_of_nil|(j & Hj & Hlook)]); [done|].
  pose proof (NoDup_lookup _ _ _ _ Hnd Hi Hlook). lia.
Qed.
